(** * A shallow embedding of system-backup's [src/main.rs]

    The program reads a TOML config, resolves a layered ignore policy and an
    exclude set per sync entry, walks each source tree with the [ignore]
    crate and runs [rsync] once per yielded entry.  Byte strings ([OsStr] on
    Unix) and Rust [str] are both modelled as [string] (an [ascii] is 8 bits,
    so every byte is representable); [to_str] checks UTF-8 validity. *)

From Stdlib Require Import ZArith Ascii String List Bool Lia.
From stdpp Require Import base gmap strings list.
Import ListNotations.
Open Scope string_scope.

(* ------------------------------------------------------------------ *)
(** ** Configuration records (lines 54-153) *)

(** [struct IgnoreSettings]: seven optional toggles. *)
Record IgnoreSettings := {
  hidden : option bool;
  parents : option bool;
  ignore : option bool;
  git_global : option bool;
  git_ignore : option bool;
  git_exclude : option bool;
  same_file_system : option bool
}.

(** [impl Default for IgnoreSettings]: every toggle unset. *)
Definition IgnoreSettings_default : IgnoreSettings := {|
  hidden := None; parents := None; ignore := None; git_ignore := None;
  git_global := None; git_exclude := None; same_file_system := None |}.

Definition DEFAULT_LOG_LEVEL := "INFO".
Definition DEFAULT_TIMEZONE := "UTC".
Definition DEFAULT_TIMESTAMP_FMT := "%Y-%m-%d_%T".

(** A [VarPath] after [FromStr]: literal runs and [${name}] references. *)
Inductive Segment := Lit (s : string) | Var (name : string).
Definition VarPath := list Segment.

(** [default_relative_to]: [VarPath::from_str("${HOME}")]. *)
Definition default_relative_to : VarPath := [Var "HOME"].

(** [struct GeneralSettings]. *)
Record GeneralSettings := {
  log_level : option string;
  g_exclude : list string;
  relative_to : VarPath;
  timezone : string;
  timestamp_fmt : string;
  g_ignore_settings : IgnoreSettings
}.

(** [impl Default for GeneralSettings]. *)
Definition GeneralSettings_default : GeneralSettings := {|
  log_level := Some DEFAULT_LOG_LEVEL;
  g_exclude := [];
  timezone := DEFAULT_TIMEZONE;
  timestamp_fmt := DEFAULT_TIMESTAMP_FMT;
  g_ignore_settings := IgnoreSettings_default;
  relative_to := default_relative_to |}.

(** [struct SyncSettings]; [path] is a [PathBuf] (bytes). *)
Record SyncSettings := {
  path : string;
  s_exclude : list string;
  s_ignore_settings : IgnoreSettings
}.

(** [struct RemoteSettings]; [host] is an [IpAddr], which the code only uses
    through its [Display] rendering, kept here as that rendering. *)
Record RemoteSettings := {
  user : string;
  host : string;
  destination : VarPath
}.

(** [struct Config]. *)
Record Config := {
  general : option GeneralSettings;
  sync : list SyncSettings;
  remote : RemoteSettings
}.

(** Lines 167-170. *)
Definition general_settings_of (config : Config) : GeneralSettings :=
  match general config with
  | Some g => g
  | None => GeneralSettings_default
  end.

(* ------------------------------------------------------------------ *)
(** ** Settings resolution (lines 264-318) *)

(** The resolved policy handed to [WalkBuilder]: seven booleans. *)
Record IgnorePolicy := {
  p_hidden : bool;
  p_parents : bool;
  p_ignore : bool;
  p_git_ignore : bool;
  p_git_global : bool;
  p_git_exclude : bool;
  p_same_file_system : bool
}.

(** Each of the seven [let t = match sync.ignore_settings.t { ... }]. *)
Definition resolve_toggle (s g : option bool) : bool :=
  match s with
  | Some b => b
  | None => match g with
            | Some b => b
            | None => true
            end
  end.

Definition resolve_policy (sync : SyncSettings) (gs : GeneralSettings)
    : IgnorePolicy :=
  let si := s_ignore_settings sync in
  let gi := g_ignore_settings gs in
  {| p_hidden := resolve_toggle (hidden si) (hidden gi);
     p_parents := resolve_toggle (parents si) (parents gi);
     p_ignore := resolve_toggle (ignore si) (ignore gi);
     p_git_ignore := resolve_toggle (git_ignore si) (git_ignore gi);
     p_git_global := resolve_toggle (git_global si) (git_global gi);
     p_git_exclude := resolve_toggle (git_exclude si) (git_exclude gi);
     p_same_file_system :=
       resolve_toggle (same_file_system si) (same_file_system gi) |}.

(** Names of the seven toggles, to state per-toggle properties. *)
Inductive Toggle :=
  THidden | TParents | TIgnore | TGitIgnore | TGitGlobal | TGitExclude
| TSameFileSystem.

#[global] Instance Toggle_eq_dec : EqDecision Toggle.
Proof. solve_decision. Defined.

Definition toggle_opt (i : IgnoreSettings) (t : Toggle) : option bool :=
  match t with
  | THidden => hidden i
  | TParents => parents i
  | TIgnore => ignore i
  | TGitIgnore => git_ignore i
  | TGitGlobal => git_global i
  | TGitExclude => git_exclude i
  | TSameFileSystem => same_file_system i
  end.

Definition toggle_val (p : IgnorePolicy) (t : Toggle) : bool :=
  match t with
  | THidden => p_hidden p
  | TParents => p_parents p
  | TIgnore => p_ignore p
  | TGitIgnore => p_git_ignore p
  | TGitGlobal => p_git_global p
  | TGitExclude => p_git_exclude p
  | TSameFileSystem => p_same_file_system p
  end.

(** Setting one toggle of an entry's [IgnoreSettings] (as a config would). *)
Definition set_toggle (i : IgnoreSettings) (t : Toggle) (v : option bool)
    : IgnoreSettings :=
  let upd (u : bool) (x : option bool) := if u then v else x in
  {| hidden := upd (bool_decide (t = THidden)) (hidden i);
     parents := upd (bool_decide (t = TParents)) (parents i);
     ignore := upd (bool_decide (t = TIgnore)) (ignore i);
     git_global := upd (bool_decide (t = TGitGlobal)) (git_global i);
     git_ignore := upd (bool_decide (t = TGitIgnore)) (git_ignore i);
     git_exclude := upd (bool_decide (t = TGitExclude)) (git_exclude i);
     same_file_system :=
       upd (bool_decide (t = TSameFileSystem)) (same_file_system i) |}.

Definition set_sync_toggle (s : SyncSettings) (t : Toggle) (v : option bool)
    : SyncSettings :=
  {| path := path s; s_exclude := s_exclude s;
     s_ignore_settings := set_toggle (s_ignore_settings s) t v |}.

(* ------------------------------------------------------------------ *)
(** ** Exclude set (lines 247-253): a [HashSet<&String>] *)

Definition insert_all (l : list string) (acc : gset string) : gset string :=
  fold_left (fun a e => {[ e ]} ∪ a) l acc.

(** [let mut excludes = HashSet::new()]; the entry's patterns, then the
    general ones. *)
Definition excludes_of (sync_ex general_ex : list string) : gset string :=
  insert_all general_ex (insert_all sync_ex ∅).

(* ------------------------------------------------------------------ *)
(** ** Errors, outcomes and the run monad *)

(** [tracing::Level]. *)
Inductive Level := TRACE | DEBUG | INFO | WARN | ERROR.

(** [struct Cli] after [Cli::parse()]; clap's group makes [dry_run] and
    [rsync_dry_run] exclusive, which no property below relies on. *)
Record Cli := {
  dry_run : bool;
  rsync_dry_run : bool;
  cli_log_level : option Level
}.

(** The errors [main] returns through [?] and [bail!] (an [eyre::Report]). *)
Inductive Error :=
| ParseLevelError (s : string)
| UndefinedVariable (name : string)
| TimestampError
| RsyncNotFound
| NoHomeDir
| IoError (what : string)
| InvalidGlobPattern (pat : string)
| GlobSetError (msg : string)
| WalkError (msg : string)
| NoStatusCode.

(** How a computation ends: a value, an error reported through the error
    chain, or a panic ([unwrap], [expect]) that aborts the process. *)
Inductive Outcome (A : Type) :=
| ROk (a : A)
| RErr (e : Error)
| RPanic (msg : string).
Arguments ROk {A} a.
Arguments RErr {A} e.
Arguments RPanic {A} msg.

(** The command [main] builds for [rsync]. *)
Record Cmd := { program : string; cmd_args : list string }.

(** What the program does that is visible from outside, in order. *)
Inductive Event :=
| DryRunPrint (c : Cmd)   (** [println!("[dry-run] {:?}", cmd)] *)
| Spawn (c : Cmd)         (** [cmd.spawn()] *)
| RsyncLine (l : string)  (** [println!("[rsync] {}", line)] *)
| ExitCode (code : Z).    (** [println!("rsync exited with code {}", code)] *)

(** Output so far is threaded through; the result says how it ended. *)
Definition M (A : Type) := list Event -> list Event * Outcome A.

Definition ret {A} (a : A) : M A := fun tr => (tr, ROk a).

Definition bind {A B} (m : M A) (k : A -> M B) : M B :=
  fun tr =>
    match m tr with
    | (tr', ROk a) => k a tr'
    | (tr', RErr e) => (tr', RErr e)
    | (tr', RPanic p) => (tr', RPanic p)
    end.

Notation "x <- m ;; k" := (bind m (fun x => k))
  (at level 100, m at next level, right associativity).
Notation "m ;;; k" := (bind m (fun _ => k))
  (at level 100, right associativity).

Definition emit (ev : Event) : M unit := fun tr => ((tr ++ [ev])%list, ROk tt).
Definition throw {A} (e : Error) : M A := fun tr => (tr, RErr e).
Definition panic {A} (msg : string) : M A := fun tr => (tr, RPanic msg).

(** The [?] operator on a fallible value. *)
Definition lift {A} (o : Outcome A) : M A := fun tr => (tr, o).

Definition of_option {A} (e : Error) (o : option A) : M A :=
  match o with Some a => ret a | None => throw e end.

(** The [?] operator on an [io::Result]; the error is the OS message. *)
Definition of_io {A} (r : A + string) : M A :=
  match r with inl a => ret a | inr m => throw (IoError m) end.

Fixpoint for_each {A} (l : list A) (body : A -> M unit) : M unit :=
  match l with
  | [] => ret tt
  | x :: r => body x ;;; for_each r body
  end.

(* ------------------------------------------------------------------ *)
(** ** [OsStr::to_str]: UTF-8 validation as in [core::str::from_utf8] *)

Definition byte_in (lo hi : nat) (c : ascii) : bool :=
  Nat.leb lo (nat_of_ascii c) && Nat.leb (nat_of_ascii c) hi.

Definition cont (c : ascii) : bool := byte_in 128 191 c.

Fixpoint utf8_valid (s : string) : bool :=
  match s with
  | EmptyString => true
  | String c r =>
      if Nat.leb (nat_of_ascii c) 127 then utf8_valid r
      else if byte_in 194 223 c then
        match r with
        | String c1 r1 => cont c1 && utf8_valid r1
        | EmptyString => false
        end
      else if byte_in 224 239 c then
        match r with
        | String c1 (String c2 r2) =>
            (if Nat.eqb (nat_of_ascii c) 224 then byte_in 160 191 c1
             else if Nat.eqb (nat_of_ascii c) 237 then byte_in 128 159 c1
             else cont c1) && cont c2 && utf8_valid r2
        | _ => false
        end
      else if byte_in 240 244 c then
        match r with
        | String c1 (String c2 (String c3 r3)) =>
            (if Nat.eqb (nat_of_ascii c) 240 then byte_in 144 191 c1
             else if Nat.eqb (nat_of_ascii c) 244 then byte_in 128 143 c1
             else cont c1) && cont c2 && cont c3 && utf8_valid r3
        | _ => false
        end
      else false
  end.

Definition to_str (s : string) : option string :=
  if utf8_valid s then Some s else None.

(* ------------------------------------------------------------------ *)
(** ** Variable environment and path expressions *)

(** Modelled from the spec: [varpath]'s [EnvironmentBuilder], whose source
    is not in this repository.  The process environment is the base layer;
    explicit [set] calls overlay it, later values winning. *)
Definition build_env (proc_env : gmap string string)
    (timestamp hostname : string) : gmap string string :=
  <["hostname" := hostname]> (<["timestamp" := timestamp]> proc_env).

(** Modelled from the spec: [VarPath::eval], whose source is not in this
    repository.  Every reference is substituted by its value; the first
    reference with no value fails with [UndefinedVariable(name)]. *)
Fixpoint eval (env : gmap string string) (e : VarPath) : Outcome string :=
  match e with
  | [] => ROk ""
  | Lit s :: r =>
      match eval env r with ROk t => ROk (s ++ t) | o => o end
  | Var x :: r =>
      match env !! x with
      | None => RErr (UndefinedVariable x)
      | Some v => match eval env r with ROk t => ROk (v ++ t) | o => o end
      end
  end.

(* ------------------------------------------------------------------ *)
(** ** Log level (lines 158, 176-185) *)

Section LogLevel.
(** [tracing::Level::from_str] (from the [tracing] crate); [None] is its
    [ParseLevelError]. *)
Variable level_from_str : string -> option Level.

Definition resolve_log_level (args : Cli) (config : Config) : Outcome Level :=
  let default_log_level := DEBUG in
  match cli_log_level args with
  | Some level => ROk level
  | None =>
      match general config with
      | Some g =>
          match log_level g with
          | Some level =>
              match level_from_str level with
              | Some l => ROk l
              | None => RErr (ParseLevelError level)
              end
          | None => ROk default_log_level
          end
      | None => ROk default_log_level
      end
  end.
End LogLevel.

(* ------------------------------------------------------------------ *)
(** ** Paths ([std::path] on Unix) *)

Definition is_relative (p : string) : bool :=
  match p with
  | String c _ => negb (Ascii.eqb c "/")
  | EmptyString => true
  end.

Definition ends_with_sep (s : string) : bool :=
  match get (String.length s - 1) s with
  | Some c => Ascii.eqb c "/"
  | None => false
  end.

(** [base.join(source)]: [PathBuf::push] adds a separator unless [base] is
    empty or already ends in one; an absolute [source] replaces [base]. *)
Definition path_join (base source : string) : string :=
  if negb (is_relative source) then source
  else if String.eqb base "" || ends_with_sep base then base ++ source
  else base ++ "/" ++ source.

(* ------------------------------------------------------------------ *)
(** ** The file walker ([ignore::Walk], sequential) *)

#[local] Set Warnings "-register-all".

(** The file system under a source directory: what [walkdir] reads.
    [ErrT] is an entry that fails to read. *)
Inductive FsTree :=
| FileT (p : string)
| DirT (p : string) (children : list FsTree)
| ErrT (msg : string).

(** One item of [for result in walker]: a [DirEntry] (its path and its
    [depth()]), an [Err], or a panic raised inside [next()] (by the
    [filter_entry] closure). *)
Inductive WalkItem :=
| WOk (p : string) (depth : nat)
| WErr (msg : string)
| WPanic (msg : string).

Inductive Verdict := Keep | Skip | Boom (msg : string).

Definition unwrap_none_msg :=
  "called `Option::unwrap()` on a `None` value".

Section Walker.
(** The ignore rules the resolved [IgnorePolicy] switches on (hidden files,
    [.ignore], [.gitignore], global gitignore, [.git/info/exclude], parent
    directories), as decided for an entry.  [same_file_system] is not a skip
    rule: a mount point is still yielded but not entered, which the tree
    given to the walker ([tree_of]) reflects. *)
Variable skip_by_policy : string -> bool.
(** The [filter_entry] predicate; [None] when it panics. *)
Variable filter : string -> option bool.

(** [Walk::skip_entry] of the [ignore] crate: an entry of depth 0 (the root
    given to [WalkBuilder::new]) is never skipped; otherwise the ignore rules
    are consulted first and the [filter_entry] predicate last. *)
Definition skip_entry (depth : nat) (p : string) : Verdict :=
  if Nat.eqb depth 0 then Keep
  else if skip_by_policy p then Skip
  else match filter p with
       | Some true => Keep
       | Some false => Skip
       | None => Boom unwrap_none_msg
       end.

(** Depth first, a directory before its contents; a skipped directory is
    not descended into. *)
Fixpoint walk_at (depth : nat) (t : FsTree) : list WalkItem :=
  match t with
  | ErrT m => [WErr m]
  | FileT p =>
      match skip_entry depth p with
      | Keep => [WOk p depth]
      | Skip => []
      | Boom m => [WPanic m]
      end
  | DirT p cs =>
      match skip_entry depth p with
      | Keep => WOk p depth :: flat_map (walk_at (S depth)) cs
      | Skip => []
      | Boom m => [WPanic m]
      end
  end.

Definition walk (t : FsTree) : list WalkItem := walk_at 0 t.
End Walker.

(* ------------------------------------------------------------------ *)
(** ** The child process *)

(** What one [rsync] run does: it fails to spawn, or it prints lines on
    stdout (reading them may fail) and ends with a status that the waiting
    task hands back: [None] when [rx.await] fails (the task panicked in
    [wait().expect(..)]), [Some None] when the status has no code (killed
    by a signal), [Some (Some c)] for exit code [c]. *)
Inductive ChildRun :=
| SpawnFailed
| Ran (lines : list string) (read_err : option string)
      (status : option (option Z)).

(* ------------------------------------------------------------------ *)
(** ** [main] *)

(** The source path of a sync entry before [canonicalize] (lines 232-244):
    a relative path is joined onto the evaluated [relative_to]. *)
Definition resolve_source (variables : gmap string string)
    (gs : GeneralSettings) (sync : SyncSettings) : Outcome string :=
  if is_relative (path sync) then
    match eval variables (relative_to gs) with
    | ROk base => ROk (path_join base (path sync))
    | RErr e => RErr e
    | RPanic m => RPanic m
    end
  else ROk (path sync).

(** The panic of [ToString::to_string] when a [Display] implementation
    fails, as [jiff]'s [strftime] does on an invalid format. *)
Definition display_error_msg :=
  "a Display implementation returned an error unexpectedly: Error".

Section Program.
Variable level_from_str : string -> option Level.
(** [which("rsync")]. *)
Variable which_rsync : option string.
(** [BaseDirs::new()]. *)
Variable home_dir : option string.
(** [gethostname::gethostname()], an [OsString]. *)
Variable local_hostname : string.
(** [Timestamp::now().intz(tz)]: the current time in the zone, [None] when
    the zone is unknown. *)
Variable intz : string -> option string.
(** [zoned.strftime(fmt)] written out by [to_string]; [None] when the
    format is invalid and the [Display] implementation fails. *)
Variable strftime : string -> string -> option string.
(** The process environment. *)
Variable proc_env : gmap string string.
(** [Path::canonicalize]: the canonical path or the OS error message. *)
Variable canonicalize : string -> string + string.
(** The directory tree found on disk under a canonical path. *)
Variable tree_of : string -> FsTree.
(** [Glob::new(e)] succeeds, and [globset]'s matching of one pattern. *)
Variable glob_valid : string -> bool.
(** [GlobSetBuilder::build()]: [Some] error message when it fails. *)
Variable glob_build : list string -> option string.
Variable glob_match : string -> string -> bool.
(** The [ignore] crate's rules under a resolved policy. *)
Variable should_skip_entry : IgnorePolicy -> string -> bool.
(** Running [rsync] with a command. *)
Variable child : Cmd -> ChildRun.

(** [glob.is_match(path)] on the [GlobSet] built from the patterns. *)
Definition is_match (glob : list string) (s : string) : bool :=
  existsb (fun pat => glob_match pat s) glob.

(** The closure [exclude_filter] (lines 259-262); [None] is the panic of
    [to_str().unwrap()]. *)
Definition exclude_filter (glob : list string) (p : string) : option bool :=
  match to_str p with
  | Some s => Some (negb (is_match glob s))
  | None => None
  end.

(** Lines 335-340. *)
Definition build_args (rsync_dry_run : bool) (source destination : string)
    : list string :=
  (["--archive"; "--verbose"; "--compress"]
   ++ (if rsync_dry_run then ["--dry-run"] else [])
   ++ [source; destination])%list.

(** Lines 348-377. *)
Definition run_child (cmd : Cmd) : M unit :=
  match child cmd with
  | SpawnFailed => panic "Failed to start child process (rsync)"
  | Ran lines read_err status =>
      emit (Spawn cmd) ;;;
      for_each lines (fun l => emit (RsyncLine l)) ;;;
      match read_err with
      | Some e => throw (IoError e)
      | None =>
          match status with
          | Some (Some code) => emit (ExitCode code)
          | _ => throw NoStatusCode
          end
      end
  end.

(** The body of [for result in walker] (lines 331-378). *)
Definition sync_item (rsync : string) (args : Cli) (dest : string)
    (result : WalkItem) : M unit :=
  match result with
  | WErr m => throw (WalkError m)
  | WPanic m => panic m
  | WOk source _ =>
      match to_str source with
      | None => panic unwrap_none_msg
      | Some s =>
          let cmd := {| program := rsync;
                        cmd_args := build_args (rsync_dry_run args) s dest |} in
          if dry_run args then emit (DryRunPrint cmd) else run_child cmd
      end
  end.

(** The body of [for sync in &config.sync] (lines 232-379). *)
Definition sync_entry (rsync : string) (args : Cli) (gs : GeneralSettings)
    (variables : gmap string string) (dest : string) (sync : SyncSettings)
    : M unit :=
  source <- lift (resolve_source variables gs sync) ;;
  source <- of_io (canonicalize source) ;;
  let excludes := excludes_of (s_exclude sync) (g_exclude gs) in
  for_each (elements excludes)
    (fun e => if glob_valid e then ret tt else throw (InvalidGlobPattern e)) ;;;
  let glob := elements excludes in
  match glob_build glob with
  | Some m => throw (GlobSetError m)
  | None => ret tt
  end ;;;
  let pol := resolve_policy sync gs in
  for_each (walk (should_skip_entry pol) (exclude_filter glob) (tree_of source))
    (sync_item rsync args dest).

(** Lines 204-210 and 225-229. *)
Definition remote_of (r : RemoteSettings) : string := user r ++ "@" ++ host r.

Definition destination_of (r : RemoteSettings) (destination_dir : string)
    : string :=
  remote_of r ++ ":" ++ destination_dir ++ "/".

(** [main] after the config is read and the CLI parsed. *)
Definition main_run (args : Cli) (config : Config) : M unit :=
  let gs := general_settings_of config in
  let remote_settings := remote config in
  _ <- lift (resolve_log_level level_from_str args config) ;;
  rsync <- of_option RsyncNotFound which_rsync ;;
  _ <- of_option NoHomeDir home_dir ;;
  match to_str local_hostname with
  | None => panic unwrap_none_msg
  | Some hostname =>
      zoned <- of_option TimestampError (intz (timezone gs)) ;;
      match strftime (timestamp_fmt gs) zoned with
      | None => panic display_error_msg
      | Some ts =>
          let variables := build_env proc_env ts hostname in
          destination_dir <- lift (eval variables (destination remote_settings)) ;;
          let dest := destination_of remote_settings destination_dir in
          for_each (sync config) (sync_entry rsync args gs variables dest)
      end
  end.
End Program.

(** A fragment of [globset] used for concrete inputs: literal bytes, [?]
    for one byte and [*] for any run of bytes, [/] included ([globset]'s
    default, [literal_separator(false)]). *)
Fixpoint glob_simple (pat s : string) : bool :=
  match pat with
  | EmptyString => String.eqb s ""
  | String c pr =>
      if Ascii.eqb c "*" then
        (fix star (t : string) : bool :=
           glob_simple pr t ||
           match t with EmptyString => false | String _ t' => star t' end) s
      else match s with
           | EmptyString => false
           | String c' sr =>
               (Ascii.eqb c "?" || Ascii.eqb c c') && glob_simple pr sr
           end
  end.

(* ================================================================== *)
(** * Properties *)

(** ** Induction on directory trees *)

Section FsTreeInd.
Variable P : FsTree -> Prop.
Hypothesis Hfile : forall p, P (FileT p).
Hypothesis Hdir : forall p cs, Forall P cs -> P (DirT p cs).
Hypothesis Herr : forall m, P (ErrT m).

Fixpoint FsTree_ind' (t : FsTree) : P t :=
  match t with
  | FileT p => Hfile p
  | ErrT m => Herr m
  | DirT p cs =>
      Hdir p cs
        ((fix go (l : list FsTree) : Forall P l :=
            match l with
            | [] => List.Forall_nil P
            | c :: r => @List.Forall_cons _ P c r (FsTree_ind' c) (go r)
            end) cs)
  end.
End FsTreeInd.

(** ** The run monad *)

Lemma bind_ok {A B} (m : M A) (k : A -> M B) tr tr' a :
  m tr = (tr', ROk a) -> bind m k tr = k a tr'.
Proof. intros H. unfold bind. now rewrite H. Qed.

Lemma bind_err {A B} (m : M A) (k : A -> M B) tr tr' e :
  m tr = (tr', RErr e) -> bind m k tr = (tr', RErr e).
Proof. intros H. unfold bind. now rewrite H. Qed.

Lemma emit_run ev tr : emit ev tr = ((tr ++ [ev])%list, ROk tt).
Proof. reflexivity. Qed.

Lemma for_each_cons {A} (x : A) l body tr :
  for_each (x :: l) body tr = bind (body x) (fun _ => for_each l body) tr.
Proof. reflexivity. Qed.

Lemma for_each_app {A} (l1 l2 : list A) body tr :
  for_each (l1 ++ l2) body tr =
  match for_each l1 body tr with
  | (tr', ROk _) => for_each l2 body tr'
  | (tr', RErr e) => (tr', RErr e)
  | (tr', RPanic p) => (tr', RPanic p)
  end.
Proof.
  revert tr. induction l1 as [|x l1 IH]; intros tr; simpl; [reflexivity|].
  unfold bind. destruct (body x tr) as [tr1 [a|e|p]]; [apply IH|reflexivity..].
Qed.

Lemma for_each_emit_lines (ls : list string) tr :
  for_each ls (fun l => emit (RsyncLine l)) tr
  = ((tr ++ map RsyncLine ls)%list, ROk tt).
Proof.
  revert tr. induction ls as [|l ls IH]; intros tr; simpl.
  - now rewrite app_nil_r.
  - unfold bind. rewrite emit_run, IH, <- app_assoc. reflexivity.
Qed.

(** Pointwise equality of runs. *)
Lemma bind_ext {A B} (m1 m2 : M A) (k1 k2 : A -> M B) :
  (forall tr, m1 tr = m2 tr) -> (forall a tr, k1 a tr = k2 a tr) ->
  forall tr, bind m1 k1 tr = bind m2 k2 tr.
Proof.
  intros Hm Hk tr. unfold bind. rewrite Hm.
  destruct (m2 tr) as [tr' [a|e|p]]; auto.
Qed.

Lemma for_each_ext {A} (l : list A) (b1 b2 : A -> M unit) :
  (forall x tr, b1 x tr = b2 x tr) ->
  forall tr, for_each l b1 tr = for_each l b2 tr.
Proof.
  intros Hb. induction l as [|x l IH]; intros tr; simpl; [reflexivity|].
  apply bind_ext; auto.
Qed.

(** ** Trace invariants: every event a run adds satisfies [P] *)

Definition Inv (P : Event -> Prop) {A} (m : M A) : Prop :=
  forall tr, Forall P tr -> Forall P (fst (m tr)).

Create HintDb inv.

Lemma inv_ret P {A} (a : A) : Inv P (ret a).
Proof. intros tr H. exact H. Qed.

Lemma inv_throw P {A} e : Inv P (@throw A e).
Proof. intros tr H. exact H. Qed.

Lemma inv_panic P {A} msg : Inv P (@panic A msg).
Proof. intros tr H. exact H. Qed.

Lemma inv_lift P {A} (o : Outcome A) : Inv P (lift o).
Proof. intros tr H. exact H. Qed.

Lemma inv_of_option P {A} e (o : option A) : Inv P (of_option e o).
Proof. destruct o; intros tr H; exact H. Qed.

Lemma inv_emit (P : Event -> Prop) ev : P ev -> Inv P (emit ev).
Proof.
  intros Hev tr H. simpl. apply Forall_app. split; [exact H|].
  now constructor.
Qed.

Lemma inv_bind P {A B} (m : M A) (k : A -> M B) :
  Inv P m -> (forall a, Inv P (k a)) -> Inv P (bind m k).
Proof.
  intros Hm Hk tr H. unfold bind. specialize (Hm tr H).
  destruct (m tr) as [tr' [a|e|p]]; simpl in *; auto. apply Hk. exact Hm.
Qed.

Lemma inv_for_each P {A} (l : list A) (body : A -> M unit) :
  (forall x, Inv P (body x)) -> Inv P (for_each l body).
Proof.
  intros Hb. induction l as [|x l IH]; simpl.
  - apply inv_ret.
  - apply inv_bind; auto.
Qed.

#[local] Hint Resolve inv_ret inv_throw inv_panic inv_lift inv_of_option
  inv_bind inv_for_each : inv.

(** ** Settings resolution *)

Lemma toggle_val_resolve sync gs t :
  toggle_val (resolve_policy sync gs) t =
  resolve_toggle (toggle_opt (s_ignore_settings sync) t)
                 (toggle_opt (g_ignore_settings gs) t).
Proof. destruct t; reflexivity. Qed.

Lemma toggle_opt_set_ne i t t' v :
  t' <> t -> toggle_opt (set_toggle i t' v) t = toggle_opt i t.
Proof. intros Hne. destruct t, t'; simpl; congruence. Qed.

(** C1: for each of the seven toggles the resolved value is the Sync
    Entry's own value if set, else General Settings' value if set (the
    defaulted settings, all unset, when the config has no [general] table),
    else [true]; setting another toggle on the entry leaves it unchanged. *)
Theorem resolve_policy_three_tier :
  forall (sync : SyncSettings) (gs : GeneralSettings) (t : Toggle),
    toggle_val (resolve_policy sync gs) t =
      match toggle_opt (s_ignore_settings sync) t with
      | Some b => b
      | None => match toggle_opt (g_ignore_settings gs) t with
                | Some b => b
                | None => true
                end
      end
    /\ (forall config : Config, general config = None ->
          toggle_val (resolve_policy sync (general_settings_of config)) t =
          match toggle_opt (s_ignore_settings sync) t with
          | Some b => b
          | None => true
          end)
    /\ (forall (t' : Toggle) (v : option bool), t' <> t ->
          toggle_val (resolve_policy (set_sync_toggle sync t' v) gs) t =
          toggle_val (resolve_policy sync gs) t).
Proof.
  intros sync gs t. split; [|split].
  - rewrite toggle_val_resolve. reflexivity.
  - intros config Hg. rewrite toggle_val_resolve.
    unfold general_settings_of. rewrite Hg. destruct t; reflexivity.
  - intros t' v Hne. rewrite !toggle_val_resolve. simpl.
    rewrite toggle_opt_set_ne by exact Hne. reflexivity.
Qed.

Definition sample_sync : SyncSettings := {|
  path := "projects"; s_exclude := ["*.tmp"];
  s_ignore_settings := set_toggle IgnoreSettings_default THidden (Some false) |}.

Definition sample_general : GeneralSettings := {|
  log_level := None; g_exclude := ["*.log"];
  relative_to := default_relative_to; timezone := DEFAULT_TIMEZONE;
  timestamp_fmt := DEFAULT_TIMESTAMP_FMT;
  g_ignore_settings := set_toggle IgnoreSettings_default TParents (Some false) |}.

Definition sample_remote : RemoteSettings := {|
  user := "u"; host := "10.0.0.1"; destination := [Lit "/backup/"; Var "hostname"] |}.

Lemma resolve_policy_three_tier_witness :
  toggle_val (resolve_policy
                (set_sync_toggle sample_sync TGitIgnore (Some false))
                sample_general) THidden = false
  /\ toggle_val (resolve_policy sample_sync
       (general_settings_of {| general := None; sync := [sample_sync];
                               remote := sample_remote |})) THidden = false.
Proof.
  split.
  - destruct (resolve_policy_three_tier sample_sync sample_general THidden)
      as [H1 [_ H3]].
    rewrite (H3 TGitIgnore (Some false)) by discriminate. rewrite H1.
    reflexivity.
  - destruct (resolve_policy_three_tier sample_sync sample_general THidden)
      as [_ [H2 _]].
    rewrite H2 by reflexivity. reflexivity.
Defined.

(** ** Exclude set *)

Lemma insert_all_union (l : list string) (acc : gset string) :
  insert_all l acc = list_to_set l ∪ acc.
Proof.
  revert acc. induction l as [|e l IH]; intros acc; simpl.
  - apply leibniz_equiv. set_solver.
  - rewrite IH. apply leibniz_equiv. set_solver.
Qed.

Lemma excludes_of_union (a b : list string) :
  excludes_of a b = list_to_set a ∪ list_to_set b.
Proof.
  unfold excludes_of. rewrite !insert_all_union.
  apply leibniz_equiv. set_solver.
Qed.

(** C2: the effective Exclude Set is the deduplicated union of the entry's
    and the general patterns; it does not depend on the order of the two
    lists, on the order or repetition of patterns inside them, and a union
    with itself adds nothing. *)
Theorem excludes_of_set_union :
  forall a b : list string,
    excludes_of a b = list_to_set a ∪ list_to_set b
    /\ excludes_of a b = excludes_of b a
    /\ excludes_of a a = list_to_set a
    /\ (forall a' b' : list string,
          (forall x, In x a <-> In x a') -> (forall x, In x b <-> In x b') ->
          excludes_of a b = excludes_of b' a').
Proof.
  intros a b. rewrite !excludes_of_union. split; [|split; [|split]].
  - reflexivity.
  - apply leibniz_equiv. set_solver.
  - apply leibniz_equiv. set_solver.
  - intros a' b' Ha Hb. rewrite excludes_of_union.
    apply leibniz_equiv. intros x. rewrite !elem_of_union, !elem_of_list_to_set,
      !list_elem_of_In, Ha, Hb. tauto.
Qed.

Lemma excludes_of_set_union_witness :
  excludes_of ["*.tmp"; "*.log"; "*.tmp"] ["*.log"]
  = excludes_of ["*.log"] ["*.log"; "*.tmp"]
  /\ elements (excludes_of ["*.tmp"] ["*.log"]) = ["*.log"; "*.tmp"].
Proof.
  split.
  - destruct (excludes_of_set_union ["*.tmp"; "*.log"; "*.tmp"] ["*.log"])
      as [_ [_ [_ H]]].
    apply H; intros x; simpl; tauto.
  - vm_compute. reflexivity.
Defined.

(** ** The walker and the exclude filter *)

Lemma walk_at_yields_kept skip filter (p : string) (d : nat) :
  forall (t : FsTree) (d0 : nat),
    In (WOk p d) (walk_at skip filter d0 t) -> skip_entry skip filter d p = Keep.
Proof.
  induction t as [q|q cs IH|m] using FsTree_ind'; intros d0 Hin; simpl in Hin.
  - destruct (skip_entry skip filter d0 q) eqn:E; simpl in Hin.
    + destruct Hin as [Heq|[]]. injection Heq as -> ->. exact E.
    + contradiction.
    + destruct Hin as [Heq|[]]. discriminate.
  - destruct (skip_entry skip filter d0 q) eqn:E; simpl in Hin;
      [|contradiction|destruct Hin as [Heq|[]]; discriminate].
    destruct Hin as [Heq|Hin].
    + injection Heq as -> ->. exact E.
    + apply in_flat_map in Hin as [c [Hc Hin]].
      rewrite List.Forall_forall in IH. exact (IH c Hc (S d0) Hin).
  - destruct Hin as [Heq|[]]. discriminate.
Qed.

Lemma walk_root_first skip filter root cs :
  walk skip filter (DirT root cs)
  = WOk root 0 :: flat_map (walk_at skip filter 1) cs.
Proof. reflexivity. Qed.

(** C3, as stated, fails: the source directory itself is yielded (depth 0)
    although its full path matches the exclude pattern [*.log]. *)
Lemma walker_yields_excluded_root :
  let glob := ["*.log"] in
  let t := DirT "/srv/app.log" [FileT "/srv/app.log/out.txt"] in
  In (WOk "/srv/app.log" 0)
     (walk (fun _ => false) (exclude_filter glob_simple glob) t)
  /\ is_match glob_simple glob "/srv/app.log" = true.
Proof. vm_compute. split; [left; reflexivity | reflexivity]. Qed.

(** C3 (amended): for any ignore rules and any exclude patterns, every
    entry the walker yields below the source root has a UTF-8 path that
    matches no exclude pattern; the root itself is always yielded first,
    whatever the patterns. *)
Theorem walker_excludes_below_root :
  forall (glob_match : string -> string -> bool) (skip : string -> bool)
         (glob : list string),
    (forall (t : FsTree) (p : string) (d : nat),
        In (WOk p d) (walk skip (exclude_filter glob_match glob) t) ->
        d <> 0 ->
        exists s, to_str p = Some s /\ is_match glob_match glob s = false)
    /\ (forall (root : string) (cs : list FsTree),
          hd_error (walk skip (exclude_filter glob_match glob) (DirT root cs))
          = Some (WOk root 0)).
Proof.
  intros glob_match skip glob. split.
  - intros t p d Hin Hd.
    apply walk_at_yields_kept in Hin. unfold skip_entry in Hin.
    destruct (Nat.eqb_spec d 0) as [E|_]; [contradiction|].
    destruct (skip p); [discriminate|].
    unfold exclude_filter in Hin. destruct (to_str p) as [s|]; [|discriminate].
    exists s. split; [reflexivity|].
    destruct (is_match glob_match glob s); [discriminate|reflexivity].
  - intros root cs. reflexivity.
Qed.

Lemma walker_excludes_below_root_witness :
  exists s, to_str "/srv/app.log/out.txt" = Some s
    /\ is_match glob_simple ["*.log"] s = false.
Proof.
  destruct (walker_excludes_below_root glob_simple (fun _ => false) ["*.log"])
    as [H _].
  apply (H (DirT "/srv/app.log" [FileT "/srv/app.log/out.txt"]) _ 1).
  - vm_compute. right. left. reflexivity.
  - discriminate.
Defined.

(** ** The dispatcher *)

(** The commands a trace shows as spawned, and as printed by [--dry-run]. *)
Definition spawned (tr : list Event) : list Cmd :=
  omap (fun ev => match ev with Spawn c => Some c | _ => None end) tr.

Definition printed (tr : list Event) : list Cmd :=
  omap (fun ev => match ev with DryRunPrint c => Some c | _ => None end) tr.

(** The command [sync_item] builds for a source path. *)
Definition rsync_cmd (rsync : string) (args : Cli) (dest source : string)
    : Cmd :=
  {| program := rsync; cmd_args := build_args (rsync_dry_run args) source dest |}.

Lemma sync_item_ran child rsync args dest p d ls code tr :
  dry_run args = false -> utf8_valid p = true ->
  child (rsync_cmd rsync args dest p) = Ran ls None (Some (Some code)) ->
  sync_item child rsync args dest (WOk p d) tr =
  ((tr ++ Spawn (rsync_cmd rsync args dest p) :: map RsyncLine ls
       ++ [ExitCode code])%list, ROk tt).
Proof.
  intros Hdry Hv Hc. unfold sync_item, to_str. rewrite Hv, Hdry.
  unfold run_child. fold (rsync_cmd rsync args dest p). rewrite Hc.
  unfold bind at 1. rewrite emit_run.
  unfold bind. rewrite for_each_emit_lines, emit_run.
  rewrite <- !app_assoc. reflexivity.
Qed.

Lemma sync_item_no_code child rsync args dest p d ls st tr :
  dry_run args = false -> utf8_valid p = true ->
  child (rsync_cmd rsync args dest p) = Ran ls None st ->
  (forall code, st <> Some (Some code)) ->
  sync_item child rsync args dest (WOk p d) tr =
  ((tr ++ Spawn (rsync_cmd rsync args dest p) :: map RsyncLine ls)%list,
   RErr NoStatusCode).
Proof.
  intros Hdry Hv Hc Hst. unfold sync_item, to_str. rewrite Hv, Hdry.
  unfold run_child. fold (rsync_cmd rsync args dest p). rewrite Hc.
  unfold bind at 1. rewrite emit_run.
  unfold bind. rewrite for_each_emit_lines.
  destruct st as [[code|]|].
  - exfalso. exact (Hst code eq_refl).
  - rewrite <- app_assoc. reflexivity.
  - rewrite <- app_assoc. reflexivity.
Qed.

Lemma sync_item_dry child rsync args dest p d tr :
  dry_run args = true -> utf8_valid p = true ->
  sync_item child rsync args dest (WOk p d) tr =
  ((tr ++ [DryRunPrint (rsync_cmd rsync args dest p)])%list, ROk tt).
Proof. intros Hdry Hv. unfold sync_item, to_str. rewrite Hv, Hdry. reflexivity. Qed.

Lemma omap_rsync_lines {B} (f : Event -> option B) (ls : list string) :
  (forall l, f (RsyncLine l) = None) -> omap f (map RsyncLine ls) = [].
Proof.
  intros Hf. induction ls as [|l ls IH]; simpl; [reflexivity|].
  rewrite Hf. exact IH.
Qed.

Lemma dispatch_each_entry child rsync args dest
    (items : list (string * nat)) tr :
  Forall (fun e => utf8_valid (fst e) = true) items ->
  (forall c, exists ls code, child c = Ran ls None (Some (Some code))) ->
  let run := for_each (map (fun e => WOk (fst e) (snd e)) items)
                      (sync_item child rsync args dest) tr in
  snd run = ROk tt
  /\ spawned (fst run) = (spawned tr ++
       (if dry_run args then []
        else map (fun e => rsync_cmd rsync args dest (fst e)) items))%list
  /\ printed (fst run) = (printed tr ++
       (if dry_run args
        then map (fun e => rsync_cmd rsync args dest (fst e)) items
        else []))%list.
Proof.
  intros Hv Hc. revert tr.
  induction items as [|[p d] items IH]; intros tr.
  - simpl. destruct (dry_run args); rewrite !app_nil_r; auto.
  - inversion Hv as [|? ? Hp Hrest]; subst. simpl in Hp.
    specialize (IH Hrest). cbn [map fst snd]. rewrite for_each_cons.
    destruct (dry_run args) eqn:Hdry.
    + rewrite (bind_ok _ _ _ _ _ (sync_item_dry child rsync args dest p d tr Hdry Hp)).
      destruct (IH (tr ++ [DryRunPrint (rsync_cmd rsync args dest p)])%list)
        as [H1 [H2 H3]].
      split; [exact H1|]. unfold spawned, printed in *.
      rewrite H2, H3, !omap_app. simpl.
      split; rewrite ?app_nil_r, <- ?app_assoc; reflexivity.
    + destruct (Hc (rsync_cmd rsync args dest p)) as [ls [code Hcc]].
      rewrite (bind_ok _ _ _ _ _
                 (sync_item_ran child rsync args dest p d ls code tr Hdry Hp Hcc)).
      match goal with |- context [for_each _ _ ?t] =>
        destruct (IH t) as [H1 [H2 H3]] end.
      split; [exact H1|]. unfold spawned, printed in *.
      rewrite H2, H3, !omap_app. simpl.
      rewrite !omap_app. simpl.
      rewrite !omap_rsync_lines by reflexivity. simpl.
      split; rewrite ?app_nil_r, <- ?app_assoc; reflexivity.
Qed.

(** C4: over the entries the walker yields (files and directories alike),
    the dispatcher builds exactly one [rsync] command per entry, with that
    entry's path as the source, in the walker's order: printed under
    [--dry-run], spawned otherwise (when every run reports an exit code). *)
Theorem one_rsync_per_entry :
  forall (child : Cmd -> ChildRun) (rsync : string) (args : Cli)
         (dest : string) (items : list (string * nat)),
    Forall (fun e => utf8_valid (fst e) = true) items ->
    (forall c, exists ls code, child c = Ran ls None (Some (Some code))) ->
    let run := for_each (map (fun e => WOk (fst e) (snd e)) items)
                        (sync_item child rsync args dest) [] in
    snd run = ROk tt
    /\ (if dry_run args then printed (fst run) else spawned (fst run))
       = map (fun e => rsync_cmd rsync args dest (fst e)) items.
Proof.
  intros child rsync args dest items Hv Hc run.
  destruct (dispatch_each_entry child rsync args dest items [] Hv Hc)
    as [H1 [H2 H3]].
  split; [exact H1|].
  destruct (dry_run args); [exact H3|exact H2].
Qed.

Definition sample_args (dry rdry : bool) : Cli :=
  {| dry_run := dry; rsync_dry_run := rdry; cli_log_level := None |}.

Lemma one_rsync_per_entry_witness :
  spawned (fst (for_each [WOk "/h/p" 0; WOk "/h/p/a.txt" 1]
                  (sync_item (fun _ => Ran ["a.txt"] None (Some (Some 0%Z)))
                     "/usr/bin/rsync" (sample_args false false) "u@h:/b/") []))
  = [rsync_cmd "/usr/bin/rsync" (sample_args false false) "u@h:/b/" "/h/p";
     rsync_cmd "/usr/bin/rsync" (sample_args false false) "u@h:/b/" "/h/p/a.txt"].
Proof.
  apply (one_rsync_per_entry (fun _ => Ran ["a.txt"] None (Some (Some 0%Z)))
           "/usr/bin/rsync" (sample_args false false) "u@h:/b/"
           [("/h/p", 0); ("/h/p/a.txt", 1)]).
  - repeat constructor.
  - intros c. exists ["a.txt"], 0%Z. reflexivity.
Defined.

(** C6: for an executed transfer whose output was read, an exit code (any
    code, 23 included) is printed and the loop goes on with the next entry;
    a status that cannot be received or has no code ends the run with an
    error, the remaining entries untouched. *)
Theorem exit_code_reported_or_fatal :
  forall (child : Cmd -> ChildRun) (rsync : string) (args : Cli)
         (dest p : string) (d : nat) (rest : list WalkItem) (tr : list Event),
    dry_run args = false -> utf8_valid p = true ->
    let cmd := rsync_cmd rsync args dest p in
    let body := sync_item child rsync args dest in
    (forall ls code, child cmd = Ran ls None (Some (Some code)) ->
       for_each (WOk p d :: rest) body tr =
       for_each rest body
         (tr ++ Spawn cmd :: map RsyncLine ls ++ [ExitCode code])%list)
    /\ (forall ls st, child cmd = Ran ls None st ->
          (forall code, st <> Some (Some code)) ->
          for_each (WOk p d :: rest) body tr =
          ((tr ++ Spawn cmd :: map RsyncLine ls)%list, RErr NoStatusCode)).
Proof.
  intros child rsync args dest p d rest tr Hdry Hv cmd body. split.
  - intros ls code Hc. rewrite for_each_cons. subst body.
    rewrite (bind_ok _ _ _ _ _
               (sync_item_ran child rsync args dest p d ls code tr Hdry Hv Hc)).
    reflexivity.
  - intros ls st Hc Hst. rewrite for_each_cons. unfold bind.
    subst body. rewrite (sync_item_no_code child rsync args dest p d ls st tr
                           Hdry Hv Hc Hst).
    reflexivity.
Qed.

Lemma exit_code_reported_or_fatal_witness :
  snd (for_each [WOk "/h/p/a.txt" 1; WOk "/h/p/b.txt" 1]
         (sync_item (fun _ => Ran [] None (Some (Some 23%Z)))
            "/usr/bin/rsync" (sample_args false false) "u@h:/b/") [])
  = ROk tt
  /\ for_each [WOk "/h/p/a.txt" 1; WOk "/h/p/b.txt" 1]
       (sync_item (fun _ => Ran [] None (Some None))
          "/usr/bin/rsync" (sample_args false false) "u@h:/b/") []
     = ([Spawn (rsync_cmd "/usr/bin/rsync" (sample_args false false)
                  "u@h:/b/" "/h/p/a.txt")], RErr NoStatusCode).
Proof.
  split.
  - destruct (exit_code_reported_or_fatal
                (fun _ => Ran [] None (Some (Some 23%Z))) "/usr/bin/rsync"
                (sample_args false false) "u@h:/b/" "/h/p/a.txt" 1
                [WOk "/h/p/b.txt" 1] [] eq_refl eq_refl) as [H _].
    rewrite (H [] 23%Z eq_refl). vm_compute. reflexivity.
  - destruct (exit_code_reported_or_fatal
                (fun _ => Ran [] None (Some None)) "/usr/bin/rsync"
                (sample_args false false) "u@h:/b/" "/h/p/a.txt" 1
                [WOk "/h/p/b.txt" 1] [] eq_refl eq_refl) as [_ H].
    apply (H [] (Some None) eq_refl). discriminate.
Defined.

(** ** Whole runs of [main] *)

Lemma inv_bind_some P {A B} e (a : A) (k : A -> M B) :
  Inv P (k a) -> Inv P (bind (of_option e (Some a)) k).
Proof. intros H tr Htr. exact (H tr Htr). Qed.

Lemma inv_bind_ok P {A B} (a : A) (k : A -> M B) :
  Inv P (k a) -> Inv P (bind (lift (ROk a)) k).
Proof. intros H tr Htr. exact (H tr Htr). Qed.

Lemma inv_bind_none P {A B} e (k : A -> M B) :
  Inv P (bind (of_option e None) k).
Proof. intros tr Htr. exact Htr. Qed.

Lemma inv_bind_err P {A B} e (k : A -> M B) : Inv P (bind (lift (RErr e)) k).
Proof. intros tr Htr. exact Htr. Qed.

Lemma inv_bind_panic P {A B} m (k : A -> M B) :
  Inv P (bind (lift (RPanic m)) k).
Proof. intros tr Htr. exact Htr. Qed.

#[local] Hint Resolve inv_bind_none inv_bind_err inv_bind_panic : inv.


Lemma eval_undefined (env : gmap string string) (e : VarPath) (x : string) :
  In (Var x) e -> env !! x = None ->
  exists y, eval env e = RErr (UndefinedVariable y).
Proof.
  intros Hin Hx. induction e as [|a e IH]; [destruct Hin|].
  destruct Hin as [->|Hin].
  - exists x. simpl. rewrite Hx. reflexivity.
  - destruct (IH Hin) as [y Hy]. destruct a as [l|z]; simpl.
    + exists y. rewrite Hy. reflexivity.
    + destruct (env !! z) eqn:Hz.
      * exists y. rewrite Hy. reflexivity.
      * exists z. reflexivity.
Qed.

Lemma build_env_undefined proc_env ts hn x :
  proc_env !! x = None -> x <> "timestamp" -> x <> "hostname" ->
  build_env proc_env ts hn !! x = None.
Proof.
  intros Hp Ht Hh. unfold build_env.
  rewrite lookup_insert_ne by congruence.
  rewrite lookup_insert_ne by congruence. exact Hp.
Qed.

Lemma string_length_app (a b : string) :
  String.length (a ++ b) = String.length a + String.length b.
Proof. induction a as [|c a IH]; simpl; [reflexivity|now rewrite IH]. Qed.

Lemma string_app_assoc (a b c : string) : (a ++ b) ++ c = a ++ (b ++ c).
Proof.
  induction a as [|ch a IH]; [reflexivity|].
  change (String ch ((a ++ b) ++ c) = String ch (a ++ (b ++ c))).
  now rewrite IH.
Qed.

Lemma build_args_last rdry s dest :
  last (build_args rdry s dest) = Some dest.
Proof. destruct rdry; reflexivity. Qed.

Section MainProperties.
Context (level_from_str : string -> option Level)
        (which_rsync home_dir : option string) (local_hostname : string)
        (intz : string -> option string)
        (strftime : string -> string -> option string)
        (proc_env : gmap string string)
        (canonicalize : string -> string + string) (tree_of : string -> FsTree)
        (glob_valid : string -> bool) (glob_build : list string -> option string)
        (glob_match : string -> string -> bool)
        (should_skip_entry : IgnorePolicy -> string -> bool).

Abbreviation main child :=
  (main_run level_from_str which_rsync home_dir local_hostname intz strftime
     proc_env canonicalize tree_of glob_valid glob_build glob_match
     should_skip_entry child).

Abbreviation entry child :=
  (sync_entry canonicalize tree_of glob_valid glob_build glob_match
     should_skip_entry child).

Lemma inv_sync_entry P child rsync args gs variables dest s :
  (forall x, Inv P (sync_item child rsync args dest x)) ->
  Inv P (entry child rsync args gs variables dest s).
Proof.
  intros Hitem. unfold sync_entry.
  apply inv_bind; [apply inv_lift|intros src].
  apply inv_bind; [unfold of_io; destruct (canonicalize src); eauto with inv
                  |intros src'].
  apply inv_bind.
  - apply inv_for_each. intros e. destruct (glob_valid e); eauto with inv.
  - intros _. apply inv_bind; [destruct (glob_build _); eauto with inv|intros _].
    apply inv_for_each. exact Hitem.
Qed.

Lemma inv_main P child args config :
  (forall rsync z ts hn d,
      which_rsync = Some rsync ->
      intz (timezone (general_settings_of config)) = Some z ->
      strftime (timestamp_fmt (general_settings_of config)) z = Some ts ->
      to_str local_hostname = Some hn ->
      eval (build_env proc_env ts hn) (destination (remote config)) = ROk d ->
      forall x, Inv P (sync_item child rsync args
                         (destination_of (remote config) d) x)) ->
  Inv P (main child args config).
Proof.
  intros Hitem. unfold main_run.
  apply inv_bind; [apply inv_lift|intros _].
  destruct which_rsync as [rsync|] eqn:Hw; [apply inv_bind_some|apply inv_bind_none].
  apply inv_bind; [apply inv_of_option|intros _].
  destruct (to_str local_hostname) as [hn|] eqn:Hh; [|apply inv_panic].
  destruct (intz _) as [z|] eqn:Hz; [apply inv_bind_some|apply inv_bind_none].
  destruct (strftime _ z) as [ts|] eqn:Ht; [|apply inv_panic].
  destruct (eval _ _) as [d|e|m] eqn:He;
    [apply inv_bind_ok|apply inv_bind_err|apply inv_bind_panic].
  apply inv_for_each. intros s. apply inv_sync_entry.
  exact (Hitem rsync z ts hn d eq_refl eq_refl Ht eq_refl He).
Qed.

Lemma sync_item_dry_ext child1 child2 rsync args dest x tr :
  dry_run args = true ->
  sync_item child1 rsync args dest x tr = sync_item child2 rsync args dest x tr.
Proof.
  intros Hdry. unfold sync_item.
  destruct x as [p d|m|m]; try reflexivity.
  destruct (to_str p); [rewrite Hdry|]; reflexivity.
Qed.

Lemma main_dry_ext child1 child2 args config tr :
  dry_run args = true -> main child1 args config tr = main child2 args config tr.
Proof.
  intros Hdry. unfold main_run.
  apply bind_ext; [reflexivity|intros _ tr1].
  apply bind_ext; [reflexivity|intros rsync tr2].
  apply bind_ext; [reflexivity|intros _ tr3].
  destruct (to_str local_hostname) as [hn|]; [|reflexivity].
  apply bind_ext; [reflexivity|intros z tr4].
  destruct (strftime _ z) as [ts|]; [|reflexivity].
  apply bind_ext; [reflexivity|intros d tr5].
  apply for_each_ext. intros s tr6. unfold sync_entry.
  apply bind_ext; [reflexivity|intros src tr7].
  apply bind_ext; [reflexivity|intros src' tr8].
  apply bind_ext; [reflexivity|intros _ tr9].
  apply bind_ext; [reflexivity|intros _ tr10].
  apply for_each_ext. intros x tr11. apply sync_item_dry_ext. exact Hdry.
Qed.

(** Once the start-up steps succeed, [main] is the loop over the entries. *)
Lemma main_run_loop child args config l rsync home z ts d tr :
  resolve_log_level level_from_str args config = ROk l ->
  which_rsync = Some rsync -> home_dir = Some home ->
  utf8_valid local_hostname = true ->
  intz (timezone (general_settings_of config)) = Some z ->
  strftime (timestamp_fmt (general_settings_of config)) z = Some ts ->
  eval (build_env proc_env ts local_hostname) (destination (remote config))
  = ROk d ->
  main child args config tr
  = for_each (sync config)
      (entry child rsync args (general_settings_of config)
         (build_env proc_env ts local_hostname)
         (destination_of (remote config) d)) tr.
Proof.
  intros Hl Hw Hh Hv Hz Ht He.
  unfold main_run, bind, lift, of_option, ret, to_str.
  rewrite Hl, Hw, Hh, Hv, Hz. cbv beta iota zeta. rewrite Ht.
  cbv beta iota zeta. rewrite He. reflexivity.
Qed.

(** C5: under [--dry-run] a whole run only prints commands: no [rsync] is
    spawned for any entry of any Sync Entry, what happens does not depend
    on what running [rsync] would do, and each yielded candidate has its
    fully built command printed. *)
Theorem dry_run_never_spawns :
  forall (child : Cmd -> ChildRun) (args : Cli) (config : Config),
    dry_run args = true ->
    Forall (fun ev => exists c, ev = DryRunPrint c)
           (fst (main child args config []))
    /\ (forall child' : Cmd -> ChildRun,
          main child args config [] = main child' args config [])
    /\ (forall (rsync dest : string) (items : list (string * nat)),
          Forall (fun e => utf8_valid (fst e) = true) items ->
          for_each (map (fun e => WOk (fst e) (snd e)) items)
                   (sync_item child rsync args dest) []
          = (map (fun e => DryRunPrint (rsync_cmd rsync args dest (fst e)))
                 items, ROk tt)).
Proof.
  intros child args config Hdry. split; [|split].
  - apply inv_main; [|constructor].
    intros rsync z ts hn d _ _ _ _ _ x. unfold sync_item.
    destruct x as [p dd|m|m]; eauto with inv.
    destruct (to_str p); [|apply inv_panic].
    rewrite Hdry. apply inv_emit. eauto.
  - intros child'. apply main_dry_ext. exact Hdry.
  - intros rsync dest items Hv.
    assert (Hgen : forall tr,
               for_each (map (fun e => WOk (fst e) (snd e)) items)
                        (sync_item child rsync args dest) tr
               = ((tr ++ map (fun e => DryRunPrint (rsync_cmd rsync args dest
                                                     (fst e))) items)%list,
                  ROk tt)).
    { induction items as [|[p d] items IH]; intros tr.
      - simpl. now rewrite app_nil_r.
      - inversion Hv as [|? ? Hp Hrest]; subst. simpl in Hp.
        cbn [map fst snd]. rewrite for_each_cons.
        rewrite (bind_ok _ _ _ _ _ (sync_item_dry child rsync args dest p d tr
                                      Hdry Hp)).
        rewrite (IH Hrest). rewrite <- app_assoc. reflexivity. }
    exact (Hgen []).
Qed.

(** C7: a path expression that references a variable with no value in any
    layer fails to evaluate with [UndefinedVariable] (it never yields a
    string), and in [main] the failure aborts the run: an undefined variable
    in the destination stops it before any [rsync] command is built; one in
    [relative_to] stops it at the first relative sync entry, after the
    entries before it and before any entry after it. *)
Theorem undefined_variable_aborts :
  (forall (env : gmap string string) (e : VarPath) (x : string),
     In (Var x) e -> env !! x = None ->
     exists y, eval env e = RErr (UndefinedVariable y))
  /\ (forall (child : Cmd -> ChildRun) (args : Cli) (config : Config)
             (x : string) (l : Level) (rsync home z ts : string),
        In (Var x) (destination (remote config)) ->
        proc_env !! x = None -> x <> "timestamp" -> x <> "hostname" ->
        resolve_log_level level_from_str args config = ROk l ->
        which_rsync = Some rsync -> home_dir = Some home ->
        utf8_valid local_hostname = true ->
        intz (timezone (general_settings_of config)) = Some z ->
        strftime (timestamp_fmt (general_settings_of config)) z = Some ts ->
        exists y, main child args config [] = ([], RErr (UndefinedVariable y)))
  /\ (forall (child : Cmd -> ChildRun) (args : Cli) (config : Config)
             (x : string) (l : Level) (rsync home z ts d : string)
             (pre post : list SyncSettings) (s : SyncSettings)
             (tr : list Event),
        resolve_log_level level_from_str args config = ROk l ->
        which_rsync = Some rsync -> home_dir = Some home ->
        utf8_valid local_hostname = true ->
        intz (timezone (general_settings_of config)) = Some z ->
        strftime (timestamp_fmt (general_settings_of config)) z = Some ts ->
        eval (build_env proc_env ts local_hostname) (destination (remote config))
        = ROk d ->
        sync config = (pre ++ s :: post)%list ->
        for_each pre (entry child rsync args (general_settings_of config)
                        (build_env proc_env ts local_hostname)
                        (destination_of (remote config) d)) []
        = (tr, ROk tt) ->
        is_relative (path s) = true ->
        In (Var x) (relative_to (general_settings_of config)) ->
        proc_env !! x = None -> x <> "timestamp" -> x <> "hostname" ->
        exists y, main child args config [] = (tr, RErr (UndefinedVariable y))).
Proof.
  split; [exact eval_undefined|split].
  - intros child args config x l rsync home z ts Hin Hp Ht Hh Hl Hw Hd Hv Hz Hf.
    destruct (eval_undefined (build_env proc_env ts local_hostname)
                (destination (remote config)) x Hin
                (build_env_undefined proc_env ts local_hostname x Hp Ht Hh))
      as [y Hy].
    exists y. unfold main_run, bind, lift, of_option, ret, to_str.
    rewrite Hl, Hw, Hd, Hv, Hz. cbv beta iota zeta. rewrite Hf.
    cbv beta iota zeta. rewrite Hy. reflexivity.
  - intros child args config x l rsync home z ts d pre post s tr
      Hl Hw Hh Hv Hz Ht He Hs Hpre Hrel Hin Hp Htx Hhx.
    destruct (eval_undefined (build_env proc_env ts local_hostname)
                (relative_to (general_settings_of config)) x Hin
                (build_env_undefined proc_env ts local_hostname x Hp Htx Hhx))
      as [y Hy].
    exists y.
    rewrite (main_run_loop child args config l rsync home z ts d [] Hl Hw Hh Hv
               Hz Ht He).
    rewrite Hs, for_each_app, Hpre, for_each_cons.
    apply bind_err. unfold sync_entry. apply bind_err.
    unfold lift, resolve_source. rewrite Hrel, Hy. reflexivity.
Qed.

(** C8: the destination is [user@host:] then the evaluated path then one
    [/] (so it differs from [user@host:path]); every command a run prints
    or spawns ends with that destination, for the path the destination
    expression evaluated to. *)
Theorem destination_trailing_separator :
  (forall (r : RemoteSettings) (d : string),
     destination_of r d = user r ++ "@" ++ host r ++ ":" ++ d ++ "/"
     /\ destination_of r d <> user r ++ "@" ++ host r ++ ":" ++ d)
  /\ (forall (child : Cmd -> ChildRun) (args : Cli) (config : Config)
             (ev : Event) (c : Cmd),
        In ev (fst (main child args config [])) ->
        ev = Spawn c \/ ev = DryRunPrint c ->
        exists z ts hn d,
          intz (timezone (general_settings_of config)) = Some z
          /\ strftime (timestamp_fmt (general_settings_of config)) z = Some ts
          /\ to_str local_hostname = Some hn
          /\ eval (build_env proc_env ts hn) (destination (remote config))
             = ROk d
          /\ last (cmd_args c) = Some (destination_of (remote config) d)).
Proof.
  split.
  - intros r d. unfold destination_of, remote_of.
    split; [rewrite !string_app_assoc; reflexivity|].
    intros Heq. apply (f_equal String.length) in Heq.
    rewrite !string_length_app in Heq. simpl in Heq. lia.
  - intros child args config ev c Hin Hev.
    set (P := fun ev : Event => forall c : Cmd,
            ev = Spawn c \/ ev = DryRunPrint c ->
            exists z ts hn d,
              intz (timezone (general_settings_of config)) = Some z
              /\ strftime (timestamp_fmt (general_settings_of config)) z = Some ts
              /\ to_str local_hostname = Some hn
              /\ eval (build_env proc_env ts hn) (destination (remote config))
                 = ROk d
              /\ last (cmd_args c) = Some (destination_of (remote config) d)).
    assert (Hinv : Inv P (main child args config)).
    { apply inv_main. intros rsync z ts hn d _ Hz Ht Hh He x.
      assert (Hcmd : forall s, P (Spawn {| program := rsync; cmd_args :=
                 build_args (rsync_dry_run args) s
                   (destination_of (remote config) d) |})
               /\ P (DryRunPrint {| program := rsync; cmd_args :=
                 build_args (rsync_dry_run args) s
                   (destination_of (remote config) d) |})).
      { intros s. split; intros c' [Hc'|Hc']; inversion Hc'; subst c';
          exists z, ts, hn, d; (split; [exact Hz|]); (split; [exact Ht|]);
          (split; [exact Hh|]);
          (split; [exact He|]); apply build_args_last. }
      unfold sync_item. destruct x as [p dd|m|m]; eauto with inv.
      destruct (to_str p) as [s|]; [|apply inv_panic].
      destruct (dry_run args); [apply inv_emit, Hcmd|].
      unfold run_child. destruct (child _) as [|ls re st]; [apply inv_panic|].
      apply inv_bind; [apply inv_emit, Hcmd|intros _].
      apply inv_bind.
      - apply inv_for_each. intros l0. apply inv_emit.
        intros c' [Hc'|Hc']; discriminate.
      - intros _. destruct re; [apply inv_throw|].
        destruct st as [[code|]|]; try apply inv_throw.
        apply inv_emit. intros c' [Hc'|Hc']; discriminate. }
    specialize (Hinv [] (List.Forall_nil _)).
    rewrite List.Forall_forall in Hinv. exact (Hinv ev Hin c Hev).
Qed.

(** C10: paths are assumed to be UTF-8.  The exclude filter panics on a
    path that is not, so the walker panics on such an entry below the root
    that the ignore rules let through; the loop body panics on such a
    yielded entry (the root) after the entries before it were processed;
    and a host name that is not UTF-8 panics before any work.  None of these
    goes through the error chain. *)
Theorem non_utf8_path_panics :
  (forall (glob : list string) (p : string),
     utf8_valid p = false -> exclude_filter glob_match glob p = None)
  /\ (forall (skip : string -> bool) (glob : list string) (p : string) (d : nat),
        d <> 0 -> skip p = false -> utf8_valid p = false ->
        skip_entry skip (exclude_filter glob_match glob) d p
        = Boom unwrap_none_msg)
  /\ (forall (child : Cmd -> ChildRun) (rsync : string) (args : Cli)
             (dest : string) (pre rest : list WalkItem) (p : string) (d : nat)
             (tr tr' : list Event),
        for_each pre (sync_item child rsync args dest) tr = (tr', ROk tt) ->
        utf8_valid p = false ->
        for_each (pre ++ WOk p d :: rest) (sync_item child rsync args dest) tr
        = (tr', RPanic unwrap_none_msg))
  /\ (forall (child : Cmd -> ChildRun) (args : Cli) (config : Config)
             (l : Level) (rsync home : string),
        resolve_log_level level_from_str args config = ROk l ->
        which_rsync = Some rsync -> home_dir = Some home ->
        utf8_valid local_hostname = false ->
        main child args config [] = ([], RPanic unwrap_none_msg)).
Proof.
  split; [|split; [|split]].
  - intros glob p Hv. unfold exclude_filter, to_str. rewrite Hv. reflexivity.
  - intros skip glob p d Hd Hs Hv. unfold skip_entry.
    destruct (Nat.eqb_spec d 0) as [E|_]; [contradiction|].
    rewrite Hs. unfold exclude_filter, to_str. rewrite Hv. reflexivity.
  - intros child rsync args dest pre rest p d tr tr' Hpre Hv.
    rewrite for_each_app, Hpre, for_each_cons. unfold bind, sync_item, to_str.
    rewrite Hv. reflexivity.
  - intros child args config l rsync home Hl Hw Hd Hv.
    unfold main_run, bind, lift, of_option, ret.
    rewrite Hl, Hw, Hd. unfold to_str. rewrite Hv. reflexivity.
Qed.
End MainProperties.

(** ** Log level *)

(** C9: with no [--log-level] flag and no [general] table the level is
    [DEBUG]: the resolution reads [config.general] itself, not the defaulted
    settings, whose [log_level] is the [INFO] constant. *)
Theorem log_level_default_debug :
  forall (level_from_str : string -> option Level) (args : Cli)
         (config : Config),
    cli_log_level args = None -> general config = None ->
    resolve_log_level level_from_str args config = ROk DEBUG
    /\ log_level (general_settings_of config) = Some DEFAULT_LOG_LEVEL.
Proof.
  intros level_from_str args config Hcli Hg.
  unfold resolve_log_level, general_settings_of. rewrite Hcli, Hg.
  split; reflexivity.
Qed.

(** ** Concrete runs *)

Definition sample_tree : FsTree :=
  DirT "/h/projects"
    [FileT "/h/projects/a.log"; FileT "/h/projects/b.txt";
     DirT "/h/projects/d.tmp" [FileT "/h/projects/d.tmp/x"]].

Definition sample_config (dest : VarPath) : Config := {|
  general := Some sample_general; sync := [sample_sync];
  remote := {| user := "u"; host := "10.0.0.1"; destination := dest |} |}.

Definition sample_env : gmap string string := <["HOME" := "/h"]> ∅.

(** A clock in a known zone, a format that [strftime] accepts, every path
    already canonical and every pattern set compiling. *)
Definition sample_intz (tz : string) : option string :=
  Some "2026-10-19T00:00:00+00:00[UTC]".
Definition sample_strftime (fmt zoned : string) : option string :=
  Some "2026-10-19_00:00:00".
Definition sample_canon (p : string) : string + string := inl p.
Definition sample_build (glob : list string) : option string := None.

(** [main] on a machine called [box] with [HOME=/h], the tree above under
    every source, no ignore rule firing. *)
Definition sample_main (hostname : string) (child : Cmd -> ChildRun)
    (args : Cli) (config : Config) : M unit :=
  main_run (fun _ => None) (Some "/usr/bin/rsync") (Some "/h") hostname
    sample_intz sample_strftime sample_env sample_canon (fun _ => sample_tree)
    (fun _ => true) sample_build glob_simple (fun _ _ => false) child args config.

Example sample_main_dry :
  printed (fst (sample_main "box" (fun _ => SpawnFailed) (sample_args true false)
                 (sample_config [Lit "/backup/"; Var "hostname"]) []))
  = [rsync_cmd "/usr/bin/rsync" (sample_args true false)
       "u@10.0.0.1:/backup/box/" "/h/projects";
     rsync_cmd "/usr/bin/rsync" (sample_args true false)
       "u@10.0.0.1:/backup/box/" "/h/projects/b.txt"].
Proof. vm_compute. reflexivity. Qed.

Lemma dry_run_never_spawns_witness :
  Forall (fun ev => exists c, ev = DryRunPrint c)
    (fst (sample_main "box" (fun _ => SpawnFailed) (sample_args true false)
            (sample_config [Lit "/backup/"; Var "hostname"]) [])).
Proof.
  exact (proj1 (dry_run_never_spawns (fun _ => None) (Some "/usr/bin/rsync")
    (Some "/h") "box" sample_intz sample_strftime sample_env sample_canon
    (fun _ => sample_tree) (fun _ => true) sample_build glob_simple
    (fun _ _ => false)
    (fun _ => SpawnFailed) (sample_args true false)
    (sample_config [Lit "/backup/"; Var "hostname"]) eq_refl)).
Defined.

(** A [general] table whose [relative_to] names an undefined variable. *)
Definition nope_general : GeneralSettings := {|
  log_level := None; g_exclude := []; relative_to := [Var "NOPE"];
  timezone := DEFAULT_TIMEZONE; timestamp_fmt := DEFAULT_TIMESTAMP_FMT;
  g_ignore_settings := IgnoreSettings_default |}.

Definition nope_config : Config := {|
  general := Some nope_general; sync := [sample_sync];
  remote := sample_remote |}.

Lemma undefined_variable_aborts_witness :
  (exists y, sample_main "box" (fun _ => SpawnFailed) (sample_args false false)
               (sample_config [Lit "/backup/"; Var "NOPE"]) []
             = ([], RErr (UndefinedVariable y)))
  /\ (exists y, sample_main "box" (fun _ => SpawnFailed) (sample_args false false)
                  nope_config [] = ([], RErr (UndefinedVariable y))).
Proof.
  destruct (undefined_variable_aborts (fun _ => None) (Some "/usr/bin/rsync")
    (Some "/h") "box" sample_intz sample_strftime sample_env sample_canon
    (fun _ => sample_tree) (fun _ => true) sample_build glob_simple
    (fun _ _ => false)) as [_ [H2 H3]].
  split.
  - apply (H2 (fun _ => SpawnFailed) (sample_args false false)
      (sample_config [Lit "/backup/"; Var "NOPE"]) "NOPE" DEBUG
      "/usr/bin/rsync" "/h" "2026-10-19T00:00:00+00:00[UTC]"
      "2026-10-19_00:00:00").
    + simpl. right. left. reflexivity.
    + vm_compute. reflexivity.
    + discriminate.
    + discriminate.
    + reflexivity.
    + reflexivity.
    + reflexivity.
    + reflexivity.
    + reflexivity.
    + reflexivity.
  - apply (H3 (fun _ => SpawnFailed) (sample_args false false) nope_config
      "NOPE" DEBUG "/usr/bin/rsync" "/h" "2026-10-19T00:00:00+00:00[UTC]"
      "2026-10-19_00:00:00" "/backup/box" [] [] sample_sync []).
    + reflexivity.
    + reflexivity.
    + reflexivity.
    + reflexivity.
    + reflexivity.
    + reflexivity.
    + vm_compute. reflexivity.
    + reflexivity.
    + reflexivity.
    + vm_compute. reflexivity.
    + left. reflexivity.
    + vm_compute. reflexivity.
    + discriminate.
    + discriminate.
Defined.

Lemma destination_trailing_separator_witness :
  exists z ts hn d,
    sample_intz DEFAULT_TIMEZONE = Some z
    /\ sample_strftime DEFAULT_TIMESTAMP_FMT z = Some ts
    /\ to_str "box" = Some hn
    /\ eval (build_env sample_env ts hn)
            [Lit "/backup/"; Var "hostname"] = ROk d
    /\ last (cmd_args (rsync_cmd "/usr/bin/rsync" (sample_args false false)
                         "u@10.0.0.1:/backup/box/" "/h/projects"))
       = Some (destination_of (remote (sample_config
                                 [Lit "/backup/"; Var "hostname"])) d).
Proof.
  apply (proj2 (destination_trailing_separator (fun _ => None) (Some "/usr/bin/rsync")
    (Some "/h") "box" sample_intz sample_strftime sample_env sample_canon
    (fun _ => sample_tree) (fun _ => true) sample_build glob_simple
    (fun _ _ => false))
    (fun _ => Ran [] None (Some (Some 0%Z))) (sample_args false false)
    (sample_config [Lit "/backup/"; Var "hostname"])
    (Spawn (rsync_cmd "/usr/bin/rsync" (sample_args false false)
              "u@10.0.0.1:/backup/box/" "/h/projects"))).
  - vm_compute. left. reflexivity.
  - left. reflexivity.
Defined.

Lemma log_level_default_debug_witness :
  resolve_log_level (fun _ => Some INFO) (sample_args false false)
    {| general := None; sync := []; remote := sample_remote |} = ROk DEBUG.
Proof.
  exact (proj1 (log_level_default_debug (fun _ => Some INFO)
    (sample_args false false)
    {| general := None; sync := []; remote := sample_remote |}
    eq_refl eq_refl)).
Defined.

(** A path with the byte 0xFF, which UTF-8 never uses. *)
Definition bad_path : string := "/h/projects/" ++ String (ascii_of_nat 255) "".

Lemma non_utf8_path_panics_witness :
  exclude_filter glob_simple ["*.log"] bad_path = None
  /\ skip_entry (fun _ => false) (exclude_filter glob_simple ["*.log"]) 1 bad_path
     = Boom unwrap_none_msg
  /\ for_each ([] ++ [WOk bad_path 0; WOk "/h/projects/b.txt" 1])
       (sync_item (fun _ => SpawnFailed) "/usr/bin/rsync"
          (sample_args true false) "u@h:/b/") []
     = ([], RPanic unwrap_none_msg)
  /\ sample_main bad_path (fun _ => SpawnFailed) (sample_args false false)
       (sample_config [Lit "/backup/"]) [] = ([], RPanic unwrap_none_msg).
Proof.
  destruct (non_utf8_path_panics (fun _ => None) (Some "/usr/bin/rsync")
    (Some "/h") bad_path sample_intz sample_strftime sample_env sample_canon
    (fun _ => sample_tree) (fun _ => true) sample_build glob_simple
    (fun _ _ => false)) as [H1 [H2 [H3 H4]]].
  split; [|split; [|split]].
  - apply H1. reflexivity.
  - apply H2; [discriminate|reflexivity|reflexivity].
  - apply H3; reflexivity.
  - apply (H4 (fun _ => SpawnFailed) (sample_args false false)
             (sample_config [Lit "/backup/"]) DEBUG "/usr/bin/rsync" "/h");
      reflexivity.
Defined.

(* ================================================================== *)
(** * Further properties of [main] *)

(** [gs] with another [relative_to]. *)
Definition with_relative_to (gs : GeneralSettings) (r : VarPath)
    : GeneralSettings := {|
  log_level := log_level gs; g_exclude := g_exclude gs; relative_to := r;
  timezone := timezone gs; timestamp_fmt := timestamp_fmt gs;
  g_ignore_settings := g_ignore_settings gs |}.

(** [sync] with another [path]. *)
Definition with_path (s : SyncSettings) (p : string) : SyncSettings := {|
  path := p; s_exclude := s_exclude s; s_ignore_settings := s_ignore_settings s |}.

Lemma glob_check_invalid (glob_valid : string -> bool) (l : list string) tr :
  (exists e, In e l /\ glob_valid e = false) ->
  exists e', In e' l /\ glob_valid e' = false /\
    for_each l (fun e => if glob_valid e then ret tt
                         else throw (InvalidGlobPattern e)) tr
    = (tr, RErr (InvalidGlobPattern e')).
Proof.
  intros [e [Hin Hv]]. induction l as [|a l IH]; [destruct Hin|].
  rewrite for_each_cons. destruct (glob_valid a) eqn:Ha.
  - destruct Hin as [->|Hin]; [congruence|].
    destruct (IH Hin) as [e' [Hin' [Hv' Hrun]]].
    exists e'. split; [right; exact Hin'|]. split; [exact Hv'|].
    unfold bind, ret. exact Hrun.
  - exists a. split; [left; reflexivity|]. split; [exact Ha|].
    reflexivity.
Qed.

Lemma in_elements_excludes (a b : list string) e :
  In e (elements (excludes_of a b)) <-> In e a \/ In e b.
Proof.
  rewrite <- list_elem_of_In, elem_of_elements, excludes_of_union,
    elem_of_union, !elem_of_list_to_set, !list_elem_of_In.
  tauto.
Qed.

Lemma glob_check_valid (glob_valid : string -> bool) (l : list string) tr :
  (forall e, In e l -> glob_valid e = true) ->
  for_each l (fun e => if glob_valid e then ret tt
                       else throw (InvalidGlobPattern e)) tr
  = (tr, ROk tt).
Proof.
  intros Hv. induction l as [|a l IH]; [reflexivity|].
  rewrite for_each_cons, (Hv a (or_introl eq_refl)).
  apply IH. intros e He. apply Hv. right. exact He.
Qed.

Section Extras.
Context (canonicalize : string -> string + string) (tree_of : string -> FsTree)
        (glob_valid : string -> bool) (glob_build : list string -> option string)
        (glob_match : string -> string -> bool)
        (should_skip_entry : IgnorePolicy -> string -> bool)
        (child : Cmd -> ChildRun).

Abbreviation entry :=
  (sync_entry canonicalize tree_of glob_valid glob_build glob_match
     should_skip_entry child).

(** X3: once the source path (relative or absolute) is resolved and
    canonicalized, an exclude pattern of the entry or of [general] that does
    not compile fails the entry with [InvalidGlobPattern] before its tree is
    walked: no command is built for it. *)
Theorem invalid_glob_fails_entry :
  forall (rsync : string) (args : Cli) (gs : GeneralSettings)
         (variables : gmap string string) (dest : string)
         (s : SyncSettings) (src c : string) (tr : list Event),
    resolve_source variables gs s = ROk src -> canonicalize src = inl c ->
    (exists e, (In e (s_exclude s) \/ In e (g_exclude gs))
               /\ glob_valid e = false) ->
    exists e', (In e' (s_exclude s) \/ In e' (g_exclude gs))
      /\ glob_valid e' = false
      /\ entry rsync args gs variables dest s tr
         = (tr, RErr (InvalidGlobPattern e')).
Proof.
  intros rsync args gs variables dest s src c tr Hres Hcan [e [Hin Hv]].
  destruct (glob_check_invalid glob_valid
              (elements (excludes_of (s_exclude s) (g_exclude gs))) tr)
    as [e' [Hin' [Hv' Hrun]]].
  { exists e. split; [apply in_elements_excludes; exact Hin|exact Hv]. }
  exists e'. split; [apply in_elements_excludes; exact Hin'|].
  split; [exact Hv'|].
  unfold sync_entry.
  rewrite (bind_ok (lift (resolve_source variables gs s)) _ tr tr src)
    by (unfold lift; rewrite Hres; reflexivity).
  cbv beta.
  rewrite (bind_ok (of_io (canonicalize src)) _ tr tr c)
    by (rewrite Hcan; reflexivity).
  cbv beta zeta. apply bind_err. exact Hrun.
Qed.

(** X14: when every exclude pattern compiles but building the set fails
    ([GlobSetBuilder::build]), the entry fails with that error before its
    tree is walked. *)
Theorem glob_build_failure_fails_entry :
  forall (rsync : string) (args : Cli) (gs : GeneralSettings)
         (variables : gmap string string) (dest : string)
         (s : SyncSettings) (src c m : string) (tr : list Event),
    resolve_source variables gs s = ROk src -> canonicalize src = inl c ->
    (forall e, In e (s_exclude s) \/ In e (g_exclude gs) -> glob_valid e = true) ->
    glob_build (elements (excludes_of (s_exclude s) (g_exclude gs))) = Some m ->
    entry rsync args gs variables dest s tr = (tr, RErr (GlobSetError m)).
Proof.
  intros rsync args gs variables dest s src c m tr Hres Hcan Hv Hb.
  unfold sync_entry.
  rewrite (bind_ok (lift (resolve_source variables gs s)) _ tr tr src)
    by (unfold lift; rewrite Hres; reflexivity).
  cbv beta.
  rewrite (bind_ok (of_io (canonicalize src)) _ tr tr c)
    by (rewrite Hcan; reflexivity).
  cbv beta zeta.
  rewrite (bind_ok _ _ tr tr tt).
  - apply bind_err. rewrite Hb. reflexivity.
  - apply glob_check_valid. intros e He. apply Hv.
    apply in_elements_excludes. exact He.
Qed.

(** X4: [relative_to] is evaluated only for a relative source path: an
    absolute entry behaves the same whatever [relative_to] is; for a
    relative entry a failing evaluation fails the entry with its error, and
    a successful one makes it behave as the absolute entry [base/path]. *)
Theorem relative_source_resolution :
  forall (rsync : string) (args : Cli) (gs : GeneralSettings)
         (variables : gmap string string) (dest : string)
         (s : SyncSettings) (tr : list Event),
    (is_relative (path s) = false ->
       forall r, entry rsync args gs variables dest s tr
                 = entry rsync args (with_relative_to gs r) variables dest s tr)
    /\ (forall e, is_relative (path s) = true ->
          eval variables (relative_to gs) = RErr e ->
          entry rsync args gs variables dest s tr = (tr, RErr e))
    /\ (forall base, is_relative (path s) = true ->
          eval variables (relative_to gs) = ROk base ->
          is_relative (path_join base (path s)) = false ->
          entry rsync args gs variables dest s tr
          = entry rsync args gs variables dest
              (with_path s (path_join base (path s))) tr).
Proof.
  intros rsync args gs variables dest s tr. split; [|split].
  - intros Habs r. unfold sync_entry, resolve_source. rewrite Habs.
    reflexivity.
  - intros e Hrel He. unfold sync_entry. apply bind_err.
    unfold lift, resolve_source. rewrite Hrel, He. reflexivity.
  - intros base Hrel He Habs. unfold sync_entry.
    rewrite (bind_ok (lift (resolve_source variables gs s)) _ tr tr
               (path_join base (path s)))
      by (unfold lift, resolve_source; rewrite Hrel, He; reflexivity).
    rewrite (bind_ok (lift (resolve_source variables gs
                              (with_path s (path_join base (path s))))) _ tr tr
               (path_join base (path s)))
      by (unfold lift, resolve_source; cbn [with_path path]; rewrite Habs;
          reflexivity).
    reflexivity.
Qed.

(** X5: a resolved source path (relative or absolute) that cannot be
    canonicalized fails the entry with the I/O error [canonicalize]
    returned, before anything is walked and with no event. *)
Theorem canonicalize_failure_fails_entry :
  forall (rsync : string) (args : Cli) (gs : GeneralSettings)
         (variables : gmap string string) (dest : string)
         (s : SyncSettings) (src msg : string) (tr : list Event),
    resolve_source variables gs s = ROk src -> canonicalize src = inr msg ->
    entry rsync args gs variables dest s tr = (tr, RErr (IoError msg)).
Proof.
  intros rsync args gs variables dest s src msg tr Hres Hcan.
  unfold sync_entry.
  rewrite (bind_ok (lift (resolve_source variables gs s)) _ tr tr src)
    by (unfold lift; rewrite Hres; reflexivity).
  cbv beta. apply bind_err. rewrite Hcan. reflexivity.
Qed.
End Extras.

(** Every entry of a tree, depth first, a directory before its contents:
    what the walker yields when nothing is skipped. *)
Fixpoint entries_at (depth : nat) (t : FsTree) : list WalkItem :=
  match t with
  | ErrT m => [WErr m]
  | FileT p => [WOk p depth]
  | DirT p cs => WOk p depth :: flat_map (entries_at (S depth)) cs
  end.

(** Every path of a tree is valid UTF-8. *)
Fixpoint paths_utf8 (t : FsTree) : bool :=
  match t with
  | ErrT _ => true
  | FileT p => utf8_valid p
  | DirT p cs => utf8_valid p && forallb paths_utf8 cs
  end.

(** X10: a directory below the source root whose path matches an exclude
    pattern is dropped with its whole subtree, whatever the paths inside
    it; so is one the ignore rules skip. *)
Theorem excluded_dir_hides_subtree :
  forall (glob_match : string -> string -> bool) (skip : string -> bool)
         (glob : list string) (p : string) (cs : list FsTree) (d : nat),
    d <> 0 ->
    skip p = true \/ (utf8_valid p = true /\ is_match glob_match glob p = true) ->
    walk_at skip (exclude_filter glob_match glob) d (DirT p cs) = [].
Proof.
  intros glob_match skip glob p cs d Hd Hex. simpl. unfold skip_entry.
  destruct (Nat.eqb_spec d 0) as [E|_]; [contradiction|].
  destruct Hex as [Hs|[Hv Hm]]; [rewrite Hs; reflexivity|].
  destruct (skip p); [reflexivity|].
  unfold exclude_filter, to_str. rewrite Hv, Hm. reflexivity.
Qed.

(** X12: an entry below the root that the ignore rules skip is dropped
    before the exclude filter sees it, so even a path that is not valid
    UTF-8 is then dropped without a panic. *)
Theorem ignored_entry_never_filtered :
  forall (glob_match : string -> string -> bool) (skip : string -> bool)
         (glob : list string) (p : string) (d : nat),
    d <> 0 -> skip p = true ->
    walk_at skip (exclude_filter glob_match glob) d (FileT p) = []
    /\ forall cs, walk_at skip (exclude_filter glob_match glob) d (DirT p cs) = [].
Proof.
  intros glob_match skip glob p d Hd Hs. simpl. unfold skip_entry.
  destruct (Nat.eqb_spec d 0) as [E|_]; [contradiction|].
  rewrite Hs. split; [reflexivity|intros; reflexivity].
Qed.

(** X11: with no exclude pattern in the entry nor in [general] and no
    ignore rule firing, the walker yields every entry of a UTF-8 tree, each
    once, depth first, errors included. *)
Theorem no_patterns_walk_everything :
  forall (glob_match : string -> string -> bool) (t : FsTree),
    paths_utf8 t = true ->
    walk (fun _ => false)
         (exclude_filter glob_match (elements (excludes_of [] []))) t
    = entries_at 0 t.
Proof.
  intros glob_match t. unfold walk. generalize 0.
  induction t as [p|p cs IH|m] using FsTree_ind'; intros d Hu; simpl in *.
  - unfold skip_entry, exclude_filter, to_str. rewrite Hu.
    destruct (Nat.eqb d 0); reflexivity.
  - apply andb_true_iff in Hu as [Hp Hcs].
    assert (Hrest : flat_map (walk_at (fun _ => false)
              (exclude_filter glob_match (elements (excludes_of [] []))) (S d)) cs
            = flat_map (entries_at (S d)) cs).
    { clear Hp. induction cs as [|c cs IHcs]; [reflexivity|].
      simpl in Hcs. apply andb_true_iff in Hcs as [Hc Hcs].
      inversion IH as [|? ? Hc' Hcs']; subst.
      simpl. rewrite (Hc' (S d) Hc), (IHcs Hcs' Hcs). reflexivity. }
    rewrite Hrest. unfold skip_entry, exclude_filter, to_str. rewrite Hp.
    destruct (Nat.eqb d 0); reflexivity.
  - reflexivity.
Qed.

(** X8: [--rsync-dry-run] is what puts [--dry-run] on the rsync command
    line; without it the flag is never passed (for a source and a
    destination that are not that word). *)
Theorem rsync_dry_run_flag :
  forall (rsync : string) (args : Cli) (dest source : string),
    source <> "--dry-run" -> dest <> "--dry-run" ->
    (In "--dry-run" (cmd_args (rsync_cmd rsync args dest source))
     <-> rsync_dry_run args = true).
Proof.
  intros rsync args dest source Hs Hd. unfold rsync_cmd, build_args. simpl.
  destruct (rsync_dry_run args); simpl; split; intros H.
  - reflexivity.
  - right; right; right; left; reflexivity.
  - destruct H as [H|[H|[H|[H|[H|[]]]]]]; try discriminate; congruence.
  - discriminate.
Qed.

(** X7: when reading rsync's output fails, the lines read so far have been
    printed and the run stops with the I/O error; no exit code is printed,
    whatever rsync's status. *)
Theorem read_error_stops_after_lines :
  forall (child : Cmd -> ChildRun) (rsync : string) (args : Cli)
         (dest p : string) (d : nat) (ls : list string) (e : string)
         (st : option (option Z)) (tr : list Event),
    dry_run args = false -> utf8_valid p = true ->
    child (rsync_cmd rsync args dest p) = Ran ls (Some e) st ->
    sync_item child rsync args dest (WOk p d) tr
    = ((tr ++ Spawn (rsync_cmd rsync args dest p) :: map RsyncLine ls)%list,
       RErr (IoError e)).
Proof.
  intros child rsync args dest p d ls e st tr Hdry Hv Hc.
  unfold sync_item, to_str. rewrite Hv, Hdry.
  unfold run_child. fold (rsync_cmd rsync args dest p). rewrite Hc.
  unfold bind at 1. rewrite emit_run.
  unfold bind. rewrite for_each_emit_lines, <- app_assoc. reflexivity.
Qed.

(** X13: when rsync cannot be started the run panics with the message of
    the [expect], before any event for that entry. *)
Theorem spawn_failure_panics :
  forall (child : Cmd -> ChildRun) (rsync : string) (args : Cli)
         (dest p : string) (d : nat) (tr : list Event),
    dry_run args = false -> utf8_valid p = true ->
    child (rsync_cmd rsync args dest p) = SpawnFailed ->
    sync_item child rsync args dest (WOk p d) tr
    = (tr, RPanic "Failed to start child process (rsync)").
Proof.
  intros child rsync args dest p d tr Hdry Hv Hc.
  unfold sync_item, to_str. rewrite Hv, Hdry.
  unfold run_child. fold (rsync_cmd rsync args dest p). rewrite Hc.
  reflexivity.
Qed.

(** X6: the walker's first error ends the loop with [WalkError]: the
    entries after it are never synced. *)
Theorem walk_error_stops_loop :
  forall (child : Cmd -> ChildRun) (rsync : string) (args : Cli)
         (dest : string) (pre rest : list WalkItem) (m : string)
         (tr tr' : list Event),
    for_each pre (sync_item child rsync args dest) tr = (tr', ROk tt) ->
    for_each (pre ++ WErr m :: rest)%list (sync_item child rsync args dest) tr
    = (tr', RErr (WalkError m)).
Proof.
  intros child rsync args dest pre rest m tr tr' Hpre.
  rewrite for_each_app, Hpre. reflexivity.
Qed.

Section MainStartup.
Context (level_from_str : string -> option Level)
        (which_rsync home_dir : option string) (local_hostname : string)
        (intz : string -> option string)
        (strftime : string -> string -> option string)
        (proc_env : gmap string string)
        (canonicalize : string -> string + string) (tree_of : string -> FsTree)
        (glob_valid : string -> bool) (glob_build : list string -> option string)
        (glob_match : string -> string -> bool)
        (should_skip_entry : IgnorePolicy -> string -> bool)
        (child : Cmd -> ChildRun).

Abbreviation run :=
  (main_run level_from_str which_rsync home_dir local_hostname intz strftime
     proc_env canonicalize tree_of glob_valid glob_build glob_match
     should_skip_entry child).

(** X1: a [--log-level] flag wins over the configuration, whose
    [log_level] is then not parsed; without the flag, a [log_level] in
    [general] that does not parse stops the run at once with
    [ParseLevelError], before rsync is looked up. *)
Theorem log_level_flag_and_parse_error :
  forall (args : Cli) (config : Config) (tr : list Event),
    (forall l, cli_log_level args = Some l ->
       resolve_log_level level_from_str args config = ROk l)
    /\ (forall g s, cli_log_level args = None -> general config = Some g ->
          log_level g = Some s -> level_from_str s = None ->
          run args config tr = (tr, RErr (ParseLevelError s))).
Proof.
  intros args config tr. split.
  - intros l Hl. unfold resolve_log_level. rewrite Hl. reflexivity.
  - intros g s Hn Hg Hs Hp. unfold main_run, bind, lift.
    unfold resolve_log_level. rewrite Hn, Hg, Hs, Hp. reflexivity.
Qed.

(** X2: each start-up step that fails ends the run before any sync entry is
    looked at: no rsync on the [PATH] ([RsyncNotFound]), no home directory
    ([NoHomeDir]), a host name that is not UTF-8 (a panic), an unknown
    timezone ([TimestampError]), a timestamp format [strftime] rejects (the
    panic of [to_string]). *)
Theorem startup_failures :
  forall (args : Cli) (config : Config) (l : Level) (tr : list Event),
    resolve_log_level level_from_str args config = ROk l ->
    (which_rsync = None -> run args config tr = (tr, RErr RsyncNotFound))
    /\ (forall rsync, which_rsync = Some rsync -> home_dir = None ->
          run args config tr = (tr, RErr NoHomeDir))
    /\ (forall rsync home, which_rsync = Some rsync -> home_dir = Some home ->
          utf8_valid local_hostname = false ->
          run args config tr = (tr, RPanic unwrap_none_msg))
    /\ (forall rsync home, which_rsync = Some rsync -> home_dir = Some home ->
          utf8_valid local_hostname = true ->
          intz (timezone (general_settings_of config)) = None ->
          run args config tr = (tr, RErr TimestampError))
    /\ (forall rsync home z, which_rsync = Some rsync -> home_dir = Some home ->
          utf8_valid local_hostname = true ->
          intz (timezone (general_settings_of config)) = Some z ->
          strftime (timestamp_fmt (general_settings_of config)) z = None ->
          run args config tr = (tr, RPanic display_error_msg)).
Proof.
  intros args config l tr Hl.
  split; [|split; [|split; [|split]]]; intros.
  - unfold main_run, bind, lift, of_option, ret. rewrite Hl, H. reflexivity.
  - unfold main_run, bind, lift, of_option, ret. rewrite Hl, H, H0.
    reflexivity.
  - unfold main_run, bind, lift, of_option, ret, to_str.
    rewrite Hl, H, H0, H1. reflexivity.
  - unfold main_run, bind, lift, of_option, ret, to_str.
    rewrite Hl, H, H0, H1, H2. reflexivity.
  - unfold main_run, bind, lift, of_option, ret, to_str.
    rewrite Hl, H, H0, H1, H2. cbv beta iota zeta. rewrite H3. reflexivity.
Qed.

(** X9: once the start-up steps succeed, [main] emits nothing of its own:
    its run is exactly the loop over the sync entries in configuration
    order, with the one destination; with no sync entry it succeeds and
    does nothing. *)
Theorem main_is_entry_loop :
  forall (args : Cli) (config : Config) (l : Level)
         (rsync home z ts dd : string) (tr : list Event),
    resolve_log_level level_from_str args config = ROk l ->
    which_rsync = Some rsync -> home_dir = Some home ->
    utf8_valid local_hostname = true ->
    intz (timezone (general_settings_of config)) = Some z ->
    strftime (timestamp_fmt (general_settings_of config)) z = Some ts ->
    eval (build_env proc_env ts local_hostname)
      (destination (remote config)) = ROk dd ->
    run args config tr
    = for_each (sync config)
        (sync_entry canonicalize tree_of glob_valid glob_build glob_match
           should_skip_entry child rsync args (general_settings_of config)
           (build_env proc_env ts local_hostname)
           (destination_of (remote config) dd)) tr
    /\ (sync config = [] -> run args config tr = (tr, ROk tt)).
Proof.
  intros args config l rsync home z ts dd tr Hl Hw Hh Hv Hz Ht He.
  pose proof (main_run_loop level_from_str which_rsync home_dir local_hostname
    intz strftime proc_env canonicalize tree_of glob_valid glob_build glob_match
    should_skip_entry child args config l rsync home z ts dd tr
    Hl Hw Hh Hv Hz Ht He) as Hrun.
  split; [exact Hrun|]. intros Hs. rewrite Hrun, Hs. reflexivity.
Qed.
End MainStartup.

(** ** Concrete runs for the further properties *)

(** A relative entry whose exclude list holds a pattern that does not
    compile. *)
Definition bad_glob_sync : SyncSettings := {|
  path := "projects"; s_exclude := ["*.tmp"; "a["];
  s_ignore_settings := IgnoreSettings_default |}.

(** A [globset] fragment for which only [a[] fails to compile. *)
Definition sample_glob_valid (e : string) : bool := negb (String.eqb e "a[").

Lemma invalid_glob_fails_entry_witness :
  exists e', (In e' (s_exclude bad_glob_sync) \/ In e' (g_exclude sample_general))
    /\ sample_glob_valid e' = false
    /\ sync_entry sample_canon (fun _ => sample_tree) sample_glob_valid
         sample_build glob_simple (fun _ _ => false) (fun _ => SpawnFailed)
         "/usr/bin/rsync" (sample_args false false) sample_general sample_env
         "u@h:/b/" bad_glob_sync [] = ([], RErr (InvalidGlobPattern e')).
Proof.
  apply (invalid_glob_fails_entry sample_canon (fun _ => sample_tree)
    sample_glob_valid sample_build glob_simple (fun _ _ => false)
    (fun _ => SpawnFailed) "/usr/bin/rsync" (sample_args false false)
    sample_general sample_env "u@h:/b/" bad_glob_sync "/h/projects"
    "/h/projects" []).
  - vm_compute. reflexivity.
  - reflexivity.
  - exists "a[". split; [left; right; left; reflexivity|reflexivity].
Defined.

Lemma glob_build_failure_fails_entry_witness :
  sync_entry sample_canon (fun _ => sample_tree) (fun _ => true)
    (fun _ => Some "compiled regex exceeds size limit") glob_simple
    (fun _ _ => false) (fun _ => SpawnFailed) "/usr/bin/rsync"
    (sample_args false false) sample_general sample_env "u@h:/b/" sample_sync []
  = ([], RErr (GlobSetError "compiled regex exceeds size limit")).
Proof.
  apply (glob_build_failure_fails_entry sample_canon (fun _ => sample_tree)
    (fun _ => true) (fun _ => Some "compiled regex exceeds size limit")
    glob_simple (fun _ _ => false) (fun _ => SpawnFailed) "/usr/bin/rsync"
    (sample_args false false) sample_general sample_env "u@h:/b/" sample_sync
    "/h/projects" "/h/projects" "compiled regex exceeds size limit" []).
  - vm_compute. reflexivity.
  - reflexivity.
  - intros e _. reflexivity.
  - reflexivity.
Defined.

Lemma relative_source_resolution_witness :
  sync_entry sample_canon (fun _ => sample_tree) (fun _ => true) sample_build
    glob_simple (fun _ _ => false) (fun _ => SpawnFailed) "/usr/bin/rsync"
    (sample_args true false) sample_general sample_env "u@h:/b/" sample_sync []
  = sync_entry sample_canon (fun _ => sample_tree) (fun _ => true) sample_build
      glob_simple (fun _ _ => false) (fun _ => SpawnFailed) "/usr/bin/rsync"
      (sample_args true false) sample_general sample_env "u@h:/b/"
      (with_path sample_sync (path_join "/h" "projects")) []
  /\ sync_entry sample_canon (fun _ => sample_tree) (fun _ => true)
       sample_build glob_simple (fun _ _ => false) (fun _ => SpawnFailed)
       "/usr/bin/rsync" (sample_args true false)
       (with_relative_to sample_general [Var "NOPE"]) sample_env "u@h:/b/"
       sample_sync []
     = ([], RErr (UndefinedVariable "NOPE")).
Proof.
  split.
  - apply (proj2 (proj2 (relative_source_resolution sample_canon
      (fun _ => sample_tree) (fun _ => true) sample_build glob_simple
      (fun _ _ => false) (fun _ => SpawnFailed) "/usr/bin/rsync"
      (sample_args true false) sample_general sample_env "u@h:/b/" sample_sync
      [])) "/h"); vm_compute; reflexivity.
  - apply (proj1 (proj2 (relative_source_resolution sample_canon
      (fun _ => sample_tree) (fun _ => true) sample_build glob_simple
      (fun _ _ => false) (fun _ => SpawnFailed) "/usr/bin/rsync"
      (sample_args true false) (with_relative_to sample_general [Var "NOPE"])
      sample_env "u@h:/b/" sample_sync []))); vm_compute; reflexivity.
Defined.

Lemma canonicalize_failure_fails_entry_witness :
  sync_entry (fun _ => inr "No such file or directory (os error 2)")
    (fun _ => sample_tree) (fun _ => true) sample_build glob_simple
    (fun _ _ => false) (fun _ => SpawnFailed) "/usr/bin/rsync"
    (sample_args false false) sample_general sample_env "u@h:/b/" sample_sync []
  = ([], RErr (IoError "No such file or directory (os error 2)")).
Proof.
  apply (canonicalize_failure_fails_entry
    (fun _ => inr "No such file or directory (os error 2)")
    (fun _ => sample_tree) (fun _ => true) sample_build glob_simple
    (fun _ _ => false) (fun _ => SpawnFailed) "/usr/bin/rsync"
    (sample_args false false) sample_general sample_env "u@h:/b/" sample_sync
    "/h/projects" "No such file or directory (os error 2)" []).
  - vm_compute. reflexivity.
  - reflexivity.
Defined.

Lemma excluded_dir_hides_subtree_witness :
  walk_at (fun _ => false) (exclude_filter glob_simple ["*.tmp"]) 1
    (DirT "/h/projects/d.tmp" [FileT "/h/projects/d.tmp/x"]) = [].
Proof.
  apply (excluded_dir_hides_subtree glob_simple (fun _ => false) ["*.tmp"]
    "/h/projects/d.tmp" [FileT "/h/projects/d.tmp/x"] 1).
  - discriminate.
  - right. split; vm_compute; reflexivity.
Defined.

Lemma ignored_entry_never_filtered_witness :
  walk_at (fun p => String.eqb p bad_path)
    (exclude_filter glob_simple ["*.log"]) 1 (FileT bad_path) = [].
Proof.
  apply (proj1 (ignored_entry_never_filtered glob_simple
    (fun p => String.eqb p bad_path) ["*.log"] bad_path 1 ltac:(discriminate)
    ltac:(vm_compute; reflexivity))).
Defined.

Lemma no_patterns_walk_everything_witness :
  walk (fun _ => false)
    (exclude_filter glob_simple (elements (excludes_of [] []))) sample_tree
  = entries_at 0 sample_tree.
Proof.
  apply (no_patterns_walk_everything glob_simple sample_tree).
  vm_compute. reflexivity.
Defined.

Lemma rsync_dry_run_flag_witness :
  In "--dry-run"
    (cmd_args (rsync_cmd "/usr/bin/rsync" (sample_args false true) "u@h:/b/" "/h/p")).
Proof.
  apply (proj2 (rsync_dry_run_flag "/usr/bin/rsync" (sample_args false true)
    "u@h:/b/" "/h/p" ltac:(discriminate) ltac:(discriminate))).
  reflexivity.
Defined.

Lemma read_error_stops_after_lines_witness :
  sync_item (fun _ => Ran ["sent 10 bytes"] (Some "broken pipe") (Some (Some 0%Z)))
    "/usr/bin/rsync" (sample_args false false) "u@h:/b/" (WOk "/h/p" 0) []
  = ([Spawn (rsync_cmd "/usr/bin/rsync" (sample_args false false) "u@h:/b/" "/h/p");
      RsyncLine "sent 10 bytes"], RErr (IoError "broken pipe")).
Proof.
  apply (read_error_stops_after_lines
    (fun _ => Ran ["sent 10 bytes"] (Some "broken pipe") (Some (Some 0%Z)))
    "/usr/bin/rsync" (sample_args false false) "u@h:/b/" "/h/p" 0
    ["sent 10 bytes"] "broken pipe" (Some (Some 0%Z)) []); reflexivity.
Defined.

Lemma spawn_failure_panics_witness :
  sync_item (fun _ => SpawnFailed) "/usr/bin/rsync" (sample_args false false)
    "u@h:/b/" (WOk "/h/p" 0) []
  = ([], RPanic "Failed to start child process (rsync)").
Proof.
  apply (spawn_failure_panics (fun _ => SpawnFailed) "/usr/bin/rsync"
    (sample_args false false) "u@h:/b/" "/h/p" 0 []); reflexivity.
Defined.

Lemma walk_error_stops_loop_witness :
  for_each ([WOk "/h/p" 0] ++ [WErr "permission denied"; WOk "/h/p/a" 1])%list
    (sync_item (fun _ => SpawnFailed) "/usr/bin/rsync" (sample_args true false)
       "u@h:/b/") []
  = ([DryRunPrint (rsync_cmd "/usr/bin/rsync" (sample_args true false)
                     "u@h:/b/" "/h/p")], RErr (WalkError "permission denied")).
Proof.
  apply (walk_error_stops_loop (fun _ => SpawnFailed) "/usr/bin/rsync"
    (sample_args true false) "u@h:/b/" [WOk "/h/p" 0] [WOk "/h/p/a" 1]
    "permission denied" []).
  reflexivity.
Defined.

(** A [general] table whose [log_level] does not parse. *)
Definition loud_general : GeneralSettings := {|
  log_level := Some "LOUD"; g_exclude := []; relative_to := default_relative_to;
  timezone := DEFAULT_TIMEZONE; timestamp_fmt := DEFAULT_TIMESTAMP_FMT;
  g_ignore_settings := IgnoreSettings_default |}.

Definition sample_level (s : string) : option Level :=
  if String.eqb s "INFO" then Some INFO else None.

Lemma log_level_flag_and_parse_error_witness :
  main_run sample_level (Some "/usr/bin/rsync") (Some "/h") "box" sample_intz sample_strftime sample_env
    sample_canon (fun _ => sample_tree) (fun _ => true) sample_build glob_simple
    (fun _ _ => false) (fun _ => SpawnFailed)
    (sample_args false false)
    {| general := Some loud_general; sync := [sample_sync];
       remote := sample_remote |} []
  = ([], RErr (ParseLevelError "LOUD")).
Proof.
  apply (proj2 (log_level_flag_and_parse_error sample_level (Some "/usr/bin/rsync")
    (Some "/h") "box" sample_intz sample_strftime sample_env
    sample_canon (fun _ => sample_tree) (fun _ => true) sample_build glob_simple
    (fun _ _ => false) (fun _ => SpawnFailed) (sample_args false false)
    {| general := Some loud_general; sync := [sample_sync];
       remote := sample_remote |} []) loud_general "LOUD");
    reflexivity.
Defined.

Lemma startup_failures_witness :
  main_run sample_level None (Some "/h") "box" sample_intz sample_strftime sample_env
    sample_canon (fun _ => sample_tree) (fun _ => true) sample_build glob_simple
    (fun _ _ => false) (fun _ => SpawnFailed)
    (sample_args false false) (sample_config []) []
  = ([], RErr RsyncNotFound)
  /\ main_run sample_level (Some "/usr/bin/rsync") (Some "/h") "box"
       (fun _ => None) sample_strftime sample_env sample_canon
       (fun _ => sample_tree) (fun _ => true) sample_build glob_simple
       (fun _ _ => false) (fun _ => SpawnFailed) (sample_args false false)
       (sample_config []) []
     = ([], RErr TimestampError)
  /\ main_run sample_level (Some "/usr/bin/rsync") (Some "/h") "box"
       sample_intz (fun _ _ => None) sample_env sample_canon
       (fun _ => sample_tree) (fun _ => true) sample_build glob_simple
       (fun _ _ => false) (fun _ => SpawnFailed) (sample_args false false)
       (sample_config []) []
     = ([], RPanic display_error_msg).
Proof.
  split; [|split].
  - apply (proj1 (startup_failures sample_level None (Some "/h") "box" sample_intz sample_strftime sample_env
    sample_canon (fun _ => sample_tree) (fun _ => true) sample_build glob_simple
    (fun _ _ => false) (fun _ => SpawnFailed)
      (sample_args false false) (sample_config []) DEBUG [] eq_refl)).
    reflexivity.
  - apply (proj1 (proj2 (proj2 (proj2 (startup_failures sample_level
      (Some "/usr/bin/rsync") (Some "/h") "box" (fun _ => None)
      sample_strftime sample_env sample_canon (fun _ => sample_tree)
      (fun _ => true) sample_build glob_simple (fun _ _ => false)
      (fun _ => SpawnFailed) (sample_args false false) (sample_config [])
      DEBUG [] eq_refl)))) "/usr/bin/rsync" "/h");
      reflexivity.
  - apply (proj2 (proj2 (proj2 (proj2 (startup_failures sample_level
      (Some "/usr/bin/rsync") (Some "/h") "box" sample_intz (fun _ _ => None)
      sample_env sample_canon (fun _ => sample_tree) (fun _ => true)
      sample_build glob_simple (fun _ _ => false) (fun _ => SpawnFailed)
      (sample_args false false) (sample_config []) DEBUG [] eq_refl))))
      "/usr/bin/rsync" "/h" "2026-10-19T00:00:00+00:00[UTC]");
      reflexivity.
Defined.

Lemma main_is_entry_loop_witness :
  main_run sample_level (Some "/usr/bin/rsync") (Some "/h") "box" sample_intz sample_strftime sample_env
    sample_canon (fun _ => sample_tree) (fun _ => true) sample_build glob_simple
    (fun _ _ => false) (fun _ => SpawnFailed)
    (sample_args false false)
    {| general := None; sync := []; remote := sample_remote |} []
  = ([], ROk tt).
Proof.
  apply (proj2 (main_is_entry_loop sample_level (Some "/usr/bin/rsync")
    (Some "/h") "box" sample_intz sample_strftime sample_env
    sample_canon (fun _ => sample_tree) (fun _ => true) sample_build glob_simple
    (fun _ _ => false) (fun _ => SpawnFailed) (sample_args false false)
    {| general := None; sync := []; remote := sample_remote |} DEBUG
    "/usr/bin/rsync" "/h" "2026-10-19T00:00:00+00:00[UTC]"
    "2026-10-19_00:00:00" "/backup/box" [] eq_refl eq_refl eq_refl
    ltac:(vm_compute; reflexivity) eq_refl eq_refl
    ltac:(vm_compute; reflexivity))).
  reflexivity.
Defined.
